(** * Campaign analytics: ingestion, de-duplication and aggregation pipeline

    A shallow embedding of the worker side of the campaign-analytics
    service (event processor, aggregation service, ClickHouse schema and
    Redis client) together with the properties stated about it.

    Conventions of the embedding.
    - [uuid.UUID] is the 128-bit number it stores ([N]); [uuid.Nil] is 0.
    - [time.Time] is the instant, as the number of seconds since
      0001-01-01T00:00:00Z, so that Go's zero time is 0; nanoseconds are
      dropped. The location of a value matters to [Format] only: where
      it is not given it is UTC (the location [time.Parse] gives the
      dates of a request), and [getCacheKey_at] takes the offsets of the
      locations as arguments.
    - [int64] columns are [Z] with the two's complement wrap-around of
      ClickHouse's [sum] written out; [Float64] columns are idealised as
      exact rationals ([Q]).
    - The SQL statements sent to ClickHouse are embedded by their meaning:
      [sum], [if], [/], [GROUP BY], [WHERE], [INSERT ... SELECT], the
      [ReplacingMergeTree] engine and the materialized view trigger. *)

From Stdlib Require Import ZArith QArith Lia Ascii String List Sorted.
From stdpp Require Import base decidable option list strings gmap.

Import ListNotations.
Local Open Scope string_scope.
Local Open Scope Z_scope.

(** ** Basic data *)

Module Base.

Definition UUID := N.
Definition uuid_Nil : UUID := 0%N.

Definition Time := Z.
Definition IsZero (t : Time) : bool := (t =? 0)%Z.

(** [Platform] is [type Platform string] in the models package. *)
Definition Platform := string.

(** *** Text forms used in keys and query arguments *)

Definition hex_digit (n : N) : ascii :=
  match n with
  | 0%N => "0" | 1%N => "1" | 2%N => "2" | 3%N => "3" | 4%N => "4"
  | 5%N => "5" | 6%N => "6" | 7%N => "7" | 8%N => "8" | 9%N => "9"
  | 10%N => "a" | 11%N => "b" | 12%N => "c" | 13%N => "d" | 14%N => "e"
  | _ => "f"
  end%char.

(** [hex_fixed w n]: the [w] lowest hexadecimal digits of [n], most
    significant first. *)
Fixpoint hex_fixed (w : nat) (n : N) : string :=
  match w with
  | O => EmptyString
  | S w' => hex_fixed w' (N.shiftr n 4) +:+ String (hex_digit (N.land n 15)) EmptyString
  end.

(** [UUID.String]: the canonical 8-4-4-4-12 form. *)
Definition uuid_String (u : UUID) : string :=
  hex_fixed 8 (N.shiftr u 96) +:+ "-" +:+
  hex_fixed 4 (N.shiftr u 80) +:+ "-" +:+
  hex_fixed 4 (N.shiftr u 64) +:+ "-" +:+
  hex_fixed 4 (N.shiftr u 48) +:+ "-" +:+
  hex_fixed 12 u.

Definition dec_digit (n : Z) : ascii :=
  match n with
  | 0 => "0" | 1 => "1" | 2 => "2" | 3 => "3" | 4 => "4"
  | 5 => "5" | 6 => "6" | 7 => "7" | 8 => "8" | _ => "9"
  end%char.

Fixpoint dec_fixed (w : nat) (n : Z) : string :=
  match w with
  | O => EmptyString
  | S w' => dec_fixed w' (n / 10) +:+ String (dec_digit (n mod 10)) EmptyString
  end.

Definition seconds_per_day : Z := 86400.

(** ClickHouse [toDate]: the day a timestamp falls in (UTC). *)
Definition toDate (t : Time) : Z := t / seconds_per_day.

(** A [Date] compared with a timestamp argument is taken at midnight. *)
Definition date_to_time (d : Z) : Time := d * seconds_per_day.

(** Civil date (year, month, day) of a day number counted from
    0001-01-01, in the proleptic Gregorian calendar Go uses. *)
Definition civil_of_day (d0 : Z) : Z * Z * Z :=
  let z := d0 + 306 in
  let era := z / 146097 in
  let doe := z - era * 146097 in
  let yoe := (doe - doe / 1460 + doe / 36524 - doe / 146096) / 365 in
  let doy := doe - (365 * yoe + yoe / 4 - yoe / 100) in
  let mp := (5 * doy + 2) / 153 in
  let d := doy - (153 * mp + 2) / 5 + 1 in
  let m := if mp <? 10 then mp + 3 else mp - 9 in
  let y := yoe + era * 400 + (if m <=? 2 then 1 else 0) in
  (y, m, d).

(** The number of decimal digits of [n], for [0 <= n]; [fuel] bounds the
    loop. *)
Fixpoint dec_length (fuel : nat) (n : Z) : nat :=
  match fuel with
  | O => 1%nat
  | S fuel' => if n <? 10 then 1%nat else S (dec_length fuel' (n / 10))
  end.

(** [appendInt] of package [time]: the decimal form of [x], padded with
    leading zeros to [width] digits, after a minus sign when [x] is
    negative. *)
Definition appendInt (x : Z) (width : nat) : string :=
  let u := Z.abs x in
  (if x <? 0 then "-" else "") +:+
  dec_fixed (Nat.max width (dec_length (Z.to_nat (Z.log2 u)) u)) u.

(** [t.Format("2006-01-02")] for a value whose location is UTC: the year
    with at least four digits, the month and the day with two. *)
Definition format_date (t : Time) : string :=
  let '(y, m, d) := civil_of_day (toDate t) in
  appendInt y 4 +:+ "-" +:+ dec_fixed 2 m +:+ "-" +:+ dec_fixed 2 d.

(** [t.Format("2006-01-02")] for a value whose location is [offset]
    seconds east of UTC at [t]: [Format] prints the calendar day the
    instant has in the location of the value. *)
Definition format_date_at (offset : Z) (t : Time) : string :=
  format_date (t + offset).

(** *** 64-bit integers *)

Definition int64_min : Z := - 2 ^ 63.
Definition int64_max : Z := 2 ^ 63 - 1.
Definition in_int64 (z : Z) : Prop := int64_min <= z <= int64_max.
Definition wrap64 (z : Z) : Z := (z + 2 ^ 63) mod 2 ^ 64 - 2 ^ 63.

Definition Qltb (x y : Q) : bool := negb (Qle_bool y x).

End Base.
Export Base.

(** ** Domain models (package [models]) *)

Module Models.

(** [CampaignEvent]: raw event data received from the ad platforms. *)
Record CampaignEvent := mkEvent {
  ID : UUID;
  CampaignID : UUID;
  EvPlatform : Platform;
  EventType : string;
  Impressions : Z;
  Clicks : Z;
  Conversions : Z;
  Spend : Q;
  Revenue : Q;
  EventTime : Time;
  Region : string;
  Currency : string;
  DeduplicationKey : string;
  ReceivedAt : Time;
  ProcessedAt : Time
}.

(** [CampaignInsights]: one row of aggregated campaign metrics. *)
Record CampaignInsights := mkInsights {
  InsCampaignID : UUID;
  InsDate : Z;
  InsPlatform : Platform;
  InsRegion : string;
  InsImpressions : Z;
  InsClicks : Z;
  InsConversions : Z;
  InsSpend : Q;
  InsRevenue : Q;
  CTR : Q;
  CPC : Q;
  CPA : Q;
  ROAS : Q;
  ConversionRate : Q;
  UpdatedAt : Time
}.

(** [CampaignInsightsParams]: [Platform] and [Region] are pointers, nil
    being [None]. *)
Record CampaignInsightsParams := mkParams {
  ParCampaignID : UUID;
  StartDate : Time;
  EndDate : Time;
  ParPlatform : option Platform;
  ParRegion : option string;
  Granularity : string
}.

Definition set_ID (v : UUID) (e : CampaignEvent) : CampaignEvent :=
  mkEvent v (CampaignID e) (EvPlatform e) (EventType e) (Impressions e) (Clicks e)
    (Conversions e) (Spend e) (Revenue e) (EventTime e) (Region e) (Currency e)
    (DeduplicationKey e) (ReceivedAt e) (ProcessedAt e).

Definition set_Impressions (v : Z) (e : CampaignEvent) : CampaignEvent :=
  mkEvent (ID e) (CampaignID e) (EvPlatform e) (EventType e) v (Clicks e)
    (Conversions e) (Spend e) (Revenue e) (EventTime e) (Region e) (Currency e)
    (DeduplicationKey e) (ReceivedAt e) (ProcessedAt e).

Definition set_Clicks (v : Z) (e : CampaignEvent) : CampaignEvent :=
  mkEvent (ID e) (CampaignID e) (EvPlatform e) (EventType e) (Impressions e) v
    (Conversions e) (Spend e) (Revenue e) (EventTime e) (Region e) (Currency e)
    (DeduplicationKey e) (ReceivedAt e) (ProcessedAt e).

Definition set_Conversions (v : Z) (e : CampaignEvent) : CampaignEvent :=
  mkEvent (ID e) (CampaignID e) (EvPlatform e) (EventType e) (Impressions e) (Clicks e)
    v (Spend e) (Revenue e) (EventTime e) (Region e) (Currency e)
    (DeduplicationKey e) (ReceivedAt e) (ProcessedAt e).

Definition set_Spend (v : Q) (e : CampaignEvent) : CampaignEvent :=
  mkEvent (ID e) (CampaignID e) (EvPlatform e) (EventType e) (Impressions e) (Clicks e)
    (Conversions e) v (Revenue e) (EventTime e) (Region e) (Currency e)
    (DeduplicationKey e) (ReceivedAt e) (ProcessedAt e).

Definition set_Revenue (v : Q) (e : CampaignEvent) : CampaignEvent :=
  mkEvent (ID e) (CampaignID e) (EvPlatform e) (EventType e) (Impressions e) (Clicks e)
    (Conversions e) (Spend e) v (EventTime e) (Region e) (Currency e)
    (DeduplicationKey e) (ReceivedAt e) (ProcessedAt e).

Definition set_EventType (v : string) (e : CampaignEvent) : CampaignEvent :=
  mkEvent (ID e) (CampaignID e) (EvPlatform e) v (Impressions e) (Clicks e)
    (Conversions e) (Spend e) (Revenue e) (EventTime e) (Region e) (Currency e)
    (DeduplicationKey e) (ReceivedAt e) (ProcessedAt e).

Definition set_Region (v : string) (e : CampaignEvent) : CampaignEvent :=
  mkEvent (ID e) (CampaignID e) (EvPlatform e) (EventType e) (Impressions e) (Clicks e)
    (Conversions e) (Spend e) (Revenue e) (EventTime e) v (Currency e)
    (DeduplicationKey e) (ReceivedAt e) (ProcessedAt e).

Definition set_Currency (v : string) (e : CampaignEvent) : CampaignEvent :=
  mkEvent (ID e) (CampaignID e) (EvPlatform e) (EventType e) (Impressions e) (Clicks e)
    (Conversions e) (Spend e) (Revenue e) (EventTime e) (Region e) v
    (DeduplicationKey e) (ReceivedAt e) (ProcessedAt e).

Definition set_ReceivedAt (v : Time) (e : CampaignEvent) : CampaignEvent :=
  mkEvent (ID e) (CampaignID e) (EvPlatform e) (EventType e) (Impressions e) (Clicks e)
    (Conversions e) (Spend e) (Revenue e) (EventTime e) (Region e) (Currency e)
    (DeduplicationKey e) v (ProcessedAt e).

Definition set_ProcessedAt (v : Time) (e : CampaignEvent) : CampaignEvent :=
  mkEvent (ID e) (CampaignID e) (EvPlatform e) (EventType e) (Impressions e) (Clicks e)
    (Conversions e) (Spend e) (Revenue e) (EventTime e) (Region e) (Currency e)
    (DeduplicationKey e) (ReceivedAt e) v.

(** An aggregate row with the [updated_at] column blanked, for comparing
    rows up to that column. *)
Definition without_updated_at (r : CampaignInsights) : CampaignInsights :=
  mkInsights (InsCampaignID r) (InsDate r) (InsPlatform r) (InsRegion r)
    (InsImpressions r) (InsClicks r) (InsConversions r) (InsSpend r) (InsRevenue r)
    (CTR r) (CPC r) (CPA r) (ROAS r) (ConversionRate r) 0.

End Models.
Export Models.

(** ** ClickHouse: the schema of [InitSchema] and the meaning of its SQL *)

Module ClickHouse.

(** *** The [ReplacingMergeTree] engine

    A table keeps every inserted row until parts are merged. A merge
    leaves, among the rows with one sorting key, the row with the greatest
    version column, and among several rows with that same version the one
    inserted last. [final] is the fully merged table, the logical content
    of the table; both tables of the schema partition by the month of a
    column of their sorting key, so rows with one sorting key always meet
    in one partition. *)
Section ReplacingMergeTree.
Context {Row Key : Type} `{EqDecision Key}.
Variable sorting_key : Row -> Key.
Variable version : Row -> Z.

Definition supersede (old : option Row) (r : Row) : Row :=
  match old with
  | Some o => if version r <? version o then o else r
  | None => r
  end.

(** Rows are scanned in insertion order. *)
Fixpoint replacing_pick (k : Key) (acc : option Row) (rows : list Row) : option Row :=
  match rows with
  | [] => acc
  | r :: rest =>
      if decide (sorting_key r = k)
      then replacing_pick k (Some (supersede acc r)) rest
      else replacing_pick k acc rest
  end.

Definition final_lookup (k : Key) (rows : list Row) : option Row :=
  replacing_pick k None rows.

(** The distinct values of a list, in order of first occurrence. *)
Fixpoint distinct (l : list Key) : list Key :=
  match l with
  | [] => []
  | k :: rest => k :: filter (fun x => x <> k) (distinct rest)
  end.

Definition final (rows : list Row) : list Row :=
  omap (fun k => final_lookup k rows) (distinct (map sorting_key rows)).
End ReplacingMergeTree.

(** [campaign_events]: ORDER BY (campaign_id, event_time, deduplication_key),
    ENGINE = ReplacingMergeTree(processed_at). *)
Definition EventKey : Type := UUID * Time * string.
Definition event_key (e : CampaignEvent) : EventKey :=
  (CampaignID e, EventTime e, DeduplicationKey e).
Definition event_version (e : CampaignEvent) : Z := ProcessedAt e.

(** [campaign_insights]: ORDER BY (campaign_id, date, platform, region),
    ENGINE = ReplacingMergeTree(updated_at). *)
Definition BucketKey : Type := UUID * Z * string * string.
Definition insights_key (r : CampaignInsights) : BucketKey :=
  (InsCampaignID r, InsDate r, InsPlatform r, InsRegion r).
Definition insights_version (r : CampaignInsights) : Z := UpdatedAt r.

(** The physical rows of the two tables, in insertion order. *)
Record DB := mkDB {
  campaign_events : list CampaignEvent;
  campaign_insights : list CampaignInsights
}.

Definition empty_db : DB := mkDB [] [].

(** The logical (fully merged) content of the two tables. *)
Definition logical_events (db : DB) : list CampaignEvent :=
  final event_key event_version (campaign_events db).
Definition logical_insights (db : DB) : list CampaignInsights :=
  final insights_key insights_version (campaign_insights db).
Definition aggregate_row (k : BucketKey) (db : DB) : option CampaignInsights :=
  final_lookup insights_key insights_version k (campaign_insights db).

(** *** Aggregate functions and operators *)

(** [sum] over an [Int64] column returns [Int64] and wraps on overflow. *)
Definition sum_int64 (col : CampaignEvent -> Z) (rows : list CampaignEvent) : Z :=
  fold_left (fun acc e => wrap64 (acc + col e)) rows 0.

(** [sum] over a [Float64] column. *)
Definition sum_float64 (col : CampaignEvent -> Q) (rows : list CampaignEvent) : Q :=
  fold_left (fun acc e => (acc + col e)%Q) rows 0%Q.

(** [a / b]. ClickHouse divides as [Float64]; a zero divisor is reported
    here as a fault ([None]), which is stricter than the engine. *)
Definition sql_divide (a b : Q) : option Q :=
  if Qeq_bool b 0 then None else Some (a / b)%Q.

(** GROUP BY campaign_id, toDate(event_time), platform, region. *)
Definition bucket_of (e : CampaignEvent) : BucketKey :=
  (CampaignID e, toDate (EventTime e), EvPlatform e, Region e).

Definition group_by (rows : list CampaignEvent) : list (BucketKey * list CampaignEvent) :=
  map (fun k => (k, filter (fun e => bucket_of e = k) rows))
      (distinct (map bucket_of rows)).

(** *** The SELECT of [mv_campaign_daily_aggregation], for one group *)
Definition mv_select_row (now : Time) (k : BucketKey) (g : list CampaignEvent)
  : option CampaignInsights :=
  let '(campaign_id, date, platform, region) := k in
  let impressions := sum_int64 Impressions g in
  let clicks := sum_int64 Clicks g in
  let conversions := sum_int64 Conversions g in
  let spend := sum_float64 Spend g in
  let revenue := sum_float64 Revenue g in
  ctr ← (if 0 <? impressions
         then sql_divide (inject_Z clicks) (inject_Z impressions) else Some 0%Q);
  cpc ← (if 0 <? clicks then sql_divide spend (inject_Z clicks) else Some 0%Q);
  cpa ← (if 0 <? conversions then sql_divide spend (inject_Z conversions) else Some 0%Q);
  roas ← (if Qltb 0 spend then sql_divide revenue spend else Some 0%Q);
  conversion_rate ← (if 0 <? clicks
                     then sql_divide (inject_Z conversions) (inject_Z clicks)
                     else Some 0%Q);
  Some (mkInsights campaign_id date platform region impressions clicks conversions
          spend revenue ctr cpc cpa roas conversion_rate now).

(** The view's SELECT over the rows it is given. *)
Definition mv_select (now : Time) (rows : list CampaignEvent)
  : option (list CampaignInsights) :=
  mapM (fun kg => mv_select_row now (fst kg) (snd kg)) (group_by rows).

(** INSERT INTO campaign_events. A materialized view is an insert
    trigger: its SELECT runs over the block of rows being inserted, not
    over the table, and the result is inserted into the view's target
    table ([TO campaign_insights]). A fault in the view's SELECT fails the
    insert. *)
Definition insert_events (now : Time) (block : list CampaignEvent) (db : DB)
  : option DB :=
  rows ← mv_select now block;
  Some (mkDB (campaign_events db ++ block) (campaign_insights db ++ rows)).

End ClickHouse.
Export ClickHouse.

(** ** Redis client (package [redis]) *)

Module Redis.

(** A stored value: a JSON array of insight rows as written by [Set] for a
    slice (a possibly empty list), or any other byte string, which does not
    unmarshal into a slice of insights. Expiry is not modelled. *)
Inductive rvalue :=
  | RJson (rows : list CampaignInsights)
  | RString (s : string).

(** [Set] for a slice of insights; [fail] is a transport error. *)
Definition Set_ (fail : bool) (key : string) (rows : list CampaignInsights)
  (st : gmap string rvalue) : gmap string rvalue * bool :=
  if fail then (st, true) else (<[key := RJson rows]> st, false).

(** [GetObject] into a slice of insights: an error ([None]) when the
    transport fails, the key is missing or the value does not unmarshal. *)
Definition GetObject (fail : bool) (key : string) (st : gmap string rvalue)
  : option (list CampaignInsights) :=
  if fail then None
  else match st !! key with
       | Some (RJson rows) => Some rows
       | Some (RString _) => None
       | None => None
       end.

(** [exists > 0, err]: on an error the count is 0. *)
Definition IsDeduplicationKeyProcessed (fail : bool) (key : string)
  (st : gmap string rvalue) : bool * bool :=
  if fail then (false, true)
  else (bool_decide (is_Some (st !! ("dedup:" +:+ key))), false).

Definition MarkDeduplicationKeyProcessed (fail : bool) (key : string)
  (st : gmap string rvalue) : gmap string rvalue * bool :=
  if fail then (st, true) else (<[("dedup:" +:+ key) := RString "1"]> st, false).

(** [KEYS prefix*] followed by [DEL] of the keys found. *)
Definition delete_prefixed (pre : string) (st : gmap string rvalue)
  : gmap string rvalue :=
  filter (fun kv => String.prefix pre (fst kv) = false) st.

End Redis.
Export Redis.

(** ** Services (package [services]) *)

Module Services.

Inductive Error :=
  | ErrMissingCampaignID
  | ErrMissingPlatform
  | ErrMissingEventTime
  | ErrMissingDeduplicationKey
  | ErrUnmarshal
  | ErrClickHouse
  | ErrKafka.

(** What a call observes of its surroundings: the identifier [uuid.New]
    draws, the worker's clock at the two [time.Now] calls and the server's
    [now()]. *)
Record Env := mkEnv {
  new_uuid : UUID;
  received_now : Time;
  processed_now : Time;
  clickhouse_now : Time
}.

(** Which infrastructure calls fail during one operation. *)
Record Faults := mkFaults {
  fail_dedup_check : bool;
  fail_store : bool;
  fail_mark : bool;
  fail_cache_get : bool;
  fail_cache_set : bool;
  fail_query : bool;
  fail_invalidate : bool;
  fail_read : bool;
  fail_commit : bool  (* a failed commit is logged and the loop goes on *)
}.

Definition no_faults : Faults :=
  mkFaults false false false false false false false false false.

Record World := mkWorld {
  db : DB;
  redis : gmap string rvalue
}.

(** The calls an operation makes, in the order it makes them. *)
Inductive Effect :=
  | ERead (ok : bool)
  | EBackoff
  | EDedupCheck (key : string)
  | EValidate (ok : bool)
  | EStore (e : CampaignEvent) (ok : bool)
  | EMark (key : string)
  | ECommit (ok : bool)
  | ECacheGet (key : string)
  | EDbQuery
  | ECacheSet (key : string) (rows : list CampaignInsights)
  | EReaggregate (ok : bool)
  | EInvalidate.

(** *** Event processor *)

(** [if cond { assignment }] on the event being validated. *)
Definition when (cond : CampaignEvent -> bool) (assign : CampaignEvent -> CampaignEvent)
  (event : CampaignEvent) : CampaignEvent :=
  if cond event then assign event else event.

(** [validateEvent]: the event is changed in place, so the event is
    returned along with the error. *)
Definition validateEvent (env : Env) (event : CampaignEvent)
  : CampaignEvent * option Error :=
  let event := when (fun ev => (ID ev =? uuid_Nil)%N) (set_ID (new_uuid env)) event in
  if (CampaignID event =? uuid_Nil)%N then (event, Some ErrMissingCampaignID)
  else if String.eqb (EvPlatform event) "" then (event, Some ErrMissingPlatform)
  else if IsZero (EventTime event) then (event, Some ErrMissingEventTime)
  else if String.eqb (DeduplicationKey event) "" then (event, Some ErrMissingDeduplicationKey)
  else
    let event := when (fun ev => Impressions ev <? 0) (set_Impressions 0) event in
    let event := when (fun ev => Clicks ev <? 0) (set_Clicks 0) event in
    let event := when (fun ev => Conversions ev <? 0) (set_Conversions 0) event in
    let event := when (fun ev => Qltb (Spend ev) 0) (set_Spend 0) event in
    let event := when (fun ev => Qltb (Revenue ev) 0) (set_Revenue 0) event in
    let event := when (fun ev => String.eqb (EventType ev) "") (set_EventType "stats") event in
    let event := when (fun ev => String.eqb (Region ev) "") (set_Region "all") event in
    let event := when (fun ev => String.eqb (Currency ev) "") (set_Currency "USD") event in
    let event := when (fun ev => IsZero (ReceivedAt ev)) (set_ReceivedAt (received_now env))
                   event in
    (event, None).

(** [storeEvent]: one INSERT of one row into [campaign_events]. *)
Definition storeEvent (env : Env) (fl : Faults) (event : CampaignEvent) (d : DB)
  : DB * option Error :=
  if fail_store fl then (d, Some ErrClickHouse)
  else match insert_events (clickhouse_now env) [event] d with
       | Some d' => (d', None)
       | None => (d, Some ErrClickHouse)
       end.

(** [ProcessEvent]. [msg] is the decoded payload, [None] when
    [json.Unmarshal] fails. *)
Definition ProcessEvent (env : Env) (fl : Faults) (msg : option CampaignEvent)
  (w : World) : option Error * World * list Effect :=
  match msg with
  | None => (Some ErrUnmarshal, w, [])
  | Some event =>
      let key := DeduplicationKey event in
      let '(isProcessed, _) :=
        IsDeduplicationKeyProcessed (fail_dedup_check fl) key (redis w) in
      if isProcessed then (None, w, [EDedupCheck key])
      else
        match validateEvent env event with
        | (_, Some err) => (Some err, w, [EDedupCheck key; EValidate false])
        | (event, None) =>
            let event := set_ProcessedAt (processed_now env) event in
            match storeEvent env fl event (db w) with
            | (_, Some err) =>
                (Some err, w, [EDedupCheck key; EValidate true; EStore event false])
            | (d', None) =>
                let '(r', _) :=
                  MarkDeduplicationKeyProcessed (fail_mark fl)
                    (DeduplicationKey event) (redis w) in
                (None, mkWorld d' r',
                 [EDedupCheck key; EValidate true; EStore event true;
                  EMark (DeduplicationKey event)])
            end
        end
  end.

(** *** Aggregation service *)

Inductive arg :=
  | ArgString (s : string)
  | ArgTime (t : Time).

(** The raw string literal the query starts from, with its line breaks
    and tabs. *)
Definition insights_base_query : string :=
  "
		SELECT
			campaign_id,
			date,
			platform,
			region,
			impressions,
			clicks,
			conversions,
			spend,
			revenue,
			ctr,
			cpc,
			cpa,
			roas,
			conversion_rate,
			updated_at
		FROM campaign_insights
		WHERE 1=1
	".

(** [buildInsightsQuery]: the statement and its arguments. *)
Definition buildInsightsQuery (params : CampaignInsightsParams) : string * list arg :=
  let query := insights_base_query in
  let args : list arg := [] in
  let '(query, args) :=
    if negb (ParCampaignID params =? uuid_Nil)%N
    then (query +:+ " AND campaign_id = ?",
          (args ++ [ArgString (uuid_String (ParCampaignID params))])%list)
    else (query, args) in
  let '(query, args) :=
    if negb (IsZero (StartDate params))
    then (query +:+ " AND date >= ?", (args ++ [ArgTime (StartDate params)])%list)
    else (query, args) in
  let '(query, args) :=
    if negb (IsZero (EndDate params))
    then (query +:+ " AND date <= ?", (args ++ [ArgTime (EndDate params)])%list)
    else (query, args) in
  let '(query, args) :=
    match ParPlatform params with
    | Some p => (query +:+ " AND platform = ?", (args ++ [ArgString p])%list)
    | None => (query, args)
    end in
  let '(query, args) :=
    match ParRegion params with
    | Some r =>
        if negb (String.eqb r "")
        then (query +:+ " AND region = ?", (args ++ [ArgString r])%list)
        else (query, args)
    | None => (query, args)
    end in
  (query +:+ " ORDER BY date ASC", args).

(** [getCacheKey]. *)
Definition getCacheKey (params : CampaignInsightsParams) : string :=
  let cacheKey := "insights:" +:+ uuid_String (ParCampaignID params) +:+ ":" in
  let cacheKey :=
    if negb (IsZero (StartDate params))
    then cacheKey +:+ ("start:" +:+ format_date (StartDate params) +:+ ":")
    else cacheKey in
  let cacheKey :=
    if negb (IsZero (EndDate params))
    then cacheKey +:+ ("end:" +:+ format_date (EndDate params) +:+ ":")
    else cacheKey in
  let cacheKey :=
    match ParPlatform params with
    | Some p => cacheKey +:+ ("platform:" +:+ p +:+ ":")
    | None => cacheKey
    end in
  let cacheKey :=
    match ParRegion params with
    | Some r => cacheKey +:+ ("region:" +:+ r +:+ ":")
    | None => cacheKey
    end in
  let cacheKey :=
    if negb (String.eqb (Granularity params) "")
    then cacheKey +:+ ("granularity:" +:+ Granularity params +:+ ":")
    else cacheKey in
  cacheKey.

(** [getCacheKey] for parameter values whose two dates are in any
    location: [start_offset] and [end_offset] are the offsets, in seconds
    east of UTC, of the locations of [StartDate] and [EndDate]. [IsZero]
    looks at the instant, [Format] at the day in the location.
    [getCacheKey] is the case of two dates in UTC. *)
Definition getCacheKey_at (start_offset end_offset : Z)
  (params : CampaignInsightsParams) : string :=
  let cacheKey := "insights:" +:+ uuid_String (ParCampaignID params) +:+ ":" in
  let cacheKey :=
    if negb (IsZero (StartDate params))
    then cacheKey +:+ ("start:" +:+ format_date_at start_offset (StartDate params) +:+ ":")
    else cacheKey in
  let cacheKey :=
    if negb (IsZero (EndDate params))
    then cacheKey +:+ ("end:" +:+ format_date_at end_offset (EndDate params) +:+ ":")
    else cacheKey in
  let cacheKey :=
    match ParPlatform params with
    | Some p => cacheKey +:+ ("platform:" +:+ p +:+ ":")
    | None => cacheKey
    end in
  let cacheKey :=
    match ParRegion params with
    | Some r => cacheKey +:+ ("region:" +:+ r +:+ ":")
    | None => cacheKey
    end in
  let cacheKey :=
    if negb (String.eqb (Granularity params) "")
    then cacheKey +:+ ("granularity:" +:+ Granularity params +:+ ":")
    else cacheKey in
  cacheKey.

(** The WHERE clause [buildInsightsQuery] builds, read on one row of
    [campaign_insights]. The campaign argument is the text of the
    identifier, which the engine reads back as that identifier. *)
Definition insights_where (params : CampaignInsightsParams) (r : CampaignInsights) : bool :=
  (if negb (ParCampaignID params =? uuid_Nil)%N
   then (InsCampaignID r =? ParCampaignID params)%N else true)
  && (if negb (IsZero (StartDate params))
      then StartDate params <=? date_to_time (InsDate r) else true)
  && (if negb (IsZero (EndDate params))
      then date_to_time (InsDate r) <=? EndDate params else true)
  && (match ParPlatform params with
      | Some p => String.eqb (InsPlatform r) p
      | None => true
      end)
  && (match ParRegion params with
      | Some reg => if negb (String.eqb reg "") then String.eqb (InsRegion r) reg else true
      | None => true
      end).

(** ORDER BY date ASC, keeping the table's order among equal dates. *)
Fixpoint insert_by_date (r : CampaignInsights) (l : list CampaignInsights)
  : list CampaignInsights :=
  match l with
  | [] => [r]
  | x :: rest => if InsDate r <? InsDate x then r :: l else x :: insert_by_date r rest
  end.

Definition order_by_date (l : list CampaignInsights) : list CampaignInsights :=
  fold_left (fun acc r => insert_by_date r acc) l [].

(** The insights query on the physical rows of the table (the statement
    has no FINAL). *)
Definition run_insights_query (params : CampaignInsightsParams) (d : DB)
  : list CampaignInsights :=
  order_by_date (filter (fun r => insights_where params r = true) (campaign_insights d)).

(** [GetCampaignInsights]. The rows come back typed by the schema, so the
    scan and the parse of the identifier succeed; a failure of the query
    or of the row cursor is [fail_query]. *)
Definition GetCampaignInsights (fl : Faults) (params : CampaignInsightsParams)
  (w : World) : (Error + list CampaignInsights) * World * list Effect :=
  let cacheKey := getCacheKey params in
  let cached := GetObject (fail_cache_get fl) cacheKey (redis w) in
  match cached with
  | Some (i :: rest) => (inr (i :: rest), w, [ECacheGet cacheKey])
  | _ =>
      if fail_query fl then (inl ErrClickHouse, w, [ECacheGet cacheKey; EDbQuery])
      else
        let insights := run_insights_query params (db w) in
        match insights with
        | _ :: _ =>
            let '(r', _) := Set_ (fail_cache_set fl) cacheKey insights (redis w) in
            (inr insights, mkWorld (db w) r',
             [ECacheGet cacheKey; EDbQuery; ECacheSet cacheKey insights])
        | [] => (inr insights, w, [ECacheGet cacheKey; EDbQuery])
        end
  end.

(** The SELECT of [TriggerReaggregation], for one group. *)
Definition reaggregation_select_row (now : Time) (k : BucketKey) (g : list CampaignEvent)
  : option CampaignInsights :=
  let '(campaign_id, date, platform, region) := k in
  let impressions := sum_int64 Impressions g in
  let clicks := sum_int64 Clicks g in
  let conversions := sum_int64 Conversions g in
  let spend := sum_float64 Spend g in
  let revenue := sum_float64 Revenue g in
  ctr ← (if 0 <? impressions
         then sql_divide (inject_Z clicks) (inject_Z impressions) else Some 0%Q);
  cpc ← (if 0 <? clicks then sql_divide spend (inject_Z clicks) else Some 0%Q);
  cpa ← (if 0 <? conversions then sql_divide spend (inject_Z conversions) else Some 0%Q);
  roas ← (if Qltb 0 spend then sql_divide revenue spend else Some 0%Q);
  conversion_rate ← (if 0 <? clicks
                     then sql_divide (inject_Z conversions) (inject_Z clicks)
                     else Some 0%Q);
  Some (mkInsights campaign_id date platform region impressions clicks conversions
          spend revenue ctr cpc cpa roas conversion_rate now).

(** WHERE campaign_id = ? AND event_time >= ? AND event_time <= ? *)
Definition reaggregation_where (campaignID : UUID) (startDate endDate : Time)
  (e : CampaignEvent) : bool :=
  (CampaignID e =? campaignID)%N && (startDate <=? EventTime e) && (EventTime e <=? endDate).

(** The SELECT of [TriggerReaggregation] over the physical rows of
    [campaign_events] (the statement has no FINAL). *)
Definition reaggregation_select (now : Time) (campaignID : UUID)
  (startDate endDate : Time) (rows : list CampaignEvent)
  : option (list CampaignInsights) :=
  mapM (fun kg => reaggregation_select_row now (fst kg) (snd kg))
       (group_by (filter (fun e => reaggregation_where campaignID startDate endDate e = true)
                         rows)).

(** [TriggerReaggregation]: INSERT INTO campaign_insights SELECT ..., then
    the cache entries of the campaign are dropped. *)
Definition TriggerReaggregation (env : Env) (fl : Faults) (campaignID : UUID)
  (startDate endDate : Time) (w : World) : option Error * World * list Effect :=
  let selected :=
    if fail_query fl then None
    else reaggregation_select (clickhouse_now env) campaignID startDate endDate
           (campaign_events (db w)) in
  match selected with
  | None => (Some ErrClickHouse, w, [EReaggregate false])
  | Some rows =>
      let d' := mkDB (campaign_events (db w)) (campaign_insights (db w) ++ rows) in
      let cachePattern := "insights:" +:+ uuid_String campaignID +:+ ":" in
      let r' := if fail_invalidate fl then redis w
                else delete_prefixed cachePattern (redis w) in
      (None, mkWorld d' r', [EReaggregate true; EInvalidate])
  end.

End Services.
Export Services.

(** ** Worker (package [routes]) *)

Module Worker.

(** [processMessage]. *)
Definition processMessage (env : Env) (fl : Faults) (msg : option CampaignEvent)
  (w : World) : option Error * World * list Effect :=
  ProcessEvent env fl msg w.

(** One turn of the loop of [Start] on the message the broker delivers.
    The trace lists the calls the loop itself makes: [ERead] is the call
    of [consumer.ReadMessage] and [ECommit] the call of
    [consumer.CommitMessages]. What the Kafka client does inside
    [ReadMessage] is not part of it; in particular the reader is built
    with a [GroupID] ([NewConsumer]), for which the client commits the
    offset of a message when it hands the message out, so the absence of
    [ECommit] from a trace does not say that the message comes again. *)
Definition step (env : Env) (fl : Faults) (msg : option CampaignEvent)
  (w : World) : World * list Effect :=
  if fail_read fl then (w, [ERead false; EBackoff])
  else
    match processMessage env fl msg w with
    | (Some _, w', tr) => (w', ERead true :: tr)
    | (None, w', tr) => (w', ERead true :: tr ++ [ECommit (negb (fail_commit fl))])
    end.

End Worker.
Export Worker.

(** ** The system as a whole *)

Module Pipeline.

(** What happens to the shared state: the worker handles a delivered
    message, a request re-aggregates a range, a request reads insights. *)
Inductive Op :=
  | OpMessage (env : Env) (fl : Faults) (msg : option CampaignEvent)
  | OpReaggregate (env : Env) (fl : Faults) (campaignID : UUID) (startDate endDate : Time)
  | OpQuery (fl : Faults) (params : CampaignInsightsParams).

Definition apply_op (op : Op) (w : World) : World :=
  match op with
  | OpMessage env fl msg => fst (step env fl msg w)
  | OpReaggregate env fl c s e => snd (fst (TriggerReaggregation env fl c s e w))
  | OpQuery fl params => snd (fst (GetCampaignInsights fl params w))
  end.

Definition run_ops (ops : list Op) (w : World) : World :=
  fold_left (fun w op => apply_op op w) ops w.

Definition initial_world : World := mkWorld empty_db ∅.

(** [TriggerReaggregation] for one campaign and range, called once per
    element of [calls]. *)
Definition reaggregate_times (calls : list (Env * Faults)) (campaignID : UUID)
  (startDate endDate : Time) (w : World) : World :=
  run_ops (map (fun c => OpReaggregate (fst c) (snd c) campaignID startDate endDate) calls) w.

(** [GetCampaignInsights] for one query, called once per element of
    [calls]; the traces of the calls, in order. *)
Fixpoint query_times (calls : list Faults) (params : CampaignInsightsParams)
  (w : World) : list (list Effect) :=
  match calls with
  | [] => []
  | fl :: rest =>
      let '(_, w', tr) := GetCampaignInsights fl params w in
      tr :: query_times rest params w'
  end.

End Pipeline.
Export Pipeline.

(** ** Vocabulary of the statements *)

Module Vocabulary.

(** The sum of a column in the integers, without wrap-around. *)
Definition zsum (col : CampaignEvent -> Z) (rows : list CampaignEvent) : Z :=
  fold_right (fun e acc => col e + acc) 0 rows.

(** An event as [validateEvent] leaves it: no negative metric. *)
Definition clamped (e : CampaignEvent) : Prop :=
  0 <= Impressions e /\ 0 <= Clicks e /\ 0 <= Conversions e
  /\ (0 <= Spend e)%Q /\ (0 <= Revenue e)%Q.

(** The integer sums of a bucket fit in [Int64]. *)
Definition sums_fit (g : list CampaignEvent) : Prop :=
  zsum Impressions g <= int64_max /\ zsum Clicks g <= int64_max
  /\ zsum Conversions g <= int64_max.

(** The ratios of an aggregate row follow the policy: 0 for a zero
    denominator, the quotient of the sums otherwise. *)
Definition ratio_policy (r : CampaignInsights) : Prop :=
  CTR r = (if InsImpressions r =? 0 then 0
           else inject_Z (InsClicks r) / inject_Z (InsImpressions r))%Q
  /\ CPC r = (if InsClicks r =? 0 then 0 else InsSpend r / inject_Z (InsClicks r))%Q
  /\ CPA r = (if InsConversions r =? 0 then 0
              else InsSpend r / inject_Z (InsConversions r))%Q
  /\ ROAS r = (if Qeq_bool (InsSpend r) 0 then 0 else InsRevenue r / InsSpend r)%Q
  /\ ConversionRate r = (if InsClicks r =? 0 then 0
                         else inject_Z (InsConversions r) / inject_Z (InsClicks r))%Q.

(** The ratios as the guards of the SELECT lists give them: the quotient
    when the sum in the denominator is positive, 0 otherwise. *)
Definition guard_policy (r : CampaignInsights) : Prop :=
  CTR r = (if 0 <? InsImpressions r
           then inject_Z (InsClicks r) / inject_Z (InsImpressions r) else 0)%Q
  /\ CPC r = (if 0 <? InsClicks r then InsSpend r / inject_Z (InsClicks r) else 0)%Q
  /\ CPA r = (if 0 <? InsConversions r
              then InsSpend r / inject_Z (InsConversions r) else 0)%Q
  /\ ROAS r = (if Qltb 0 (InsSpend r) then InsRevenue r / InsSpend r else 0)%Q
  /\ ConversionRate r = (if 0 <? InsClicks r
                         then inject_Z (InsConversions r) / inject_Z (InsClicks r)
                         else 0)%Q.

(** The sums of an aggregate row are those of the events [g]. *)
Definition sums_of (g : list CampaignEvent) (r : CampaignInsights) : Prop :=
  InsImpressions r = sum_int64 Impressions g
  /\ InsClicks r = sum_int64 Clicks g
  /\ InsConversions r = sum_int64 Conversions g
  /\ InsSpend r = sum_float64 Spend g
  /\ InsRevenue r = sum_float64 Revenue g.

(** The four required fields. *)
Definition missing_campaign (e : CampaignEvent) : Prop := CampaignID e = uuid_Nil.
Definition missing_platform (e : CampaignEvent) : Prop := EvPlatform e = "".
Definition missing_event_time (e : CampaignEvent) : Prop := EventTime e = 0.
Definition missing_dedup_key (e : CampaignEvent) : Prop := DeduplicationKey e = "".

(** Position of a call in the order dedup check, validation, append,
    mark, commit. *)
Definition rank (ef : Effect) : Z :=
  match ef with
  | ERead _ => 0
  | EBackoff => 1
  | EDedupCheck _ => 1
  | EValidate _ => 2
  | EStore _ _ => 3
  | EMark _ => 4
  | ECommit _ => 5
  | _ => 6
  end.

(** Every dedup check of a trace comes after a validation. *)
Definition validated_before_dedup_check (tr : list Effect) : Prop :=
  forall pre key post, tr = (pre ++ EDedupCheck key :: post)%list ->
    exists ok, In (EValidate ok) pre.

(** The cache holds no non-empty list of rows under [key]. *)
Definition no_rows_cached (key : string) (st : gmap string rvalue) : Prop :=
  forall i rest, st !! key <> Some (RJson (i :: rest)).

End Vocabulary.
Export Vocabulary.

(** More vocabulary, and the sample data of the examples. *)

Module Samples.

(** The row both SELECT lists compute for the group [g] of bucket [k]. *)
Definition aggregate_of (now : Time) (k : BucketKey) (g : list CampaignEvent)
  : CampaignInsights :=
  let '(c, d, p, r) := k in
  mkInsights c d p r
    (sum_int64 Impressions g) (sum_int64 Clicks g) (sum_int64 Conversions g)
    (sum_float64 Spend g) (sum_float64 Revenue g)
    (if 0 <? sum_int64 Impressions g
     then inject_Z (sum_int64 Clicks g) / inject_Z (sum_int64 Impressions g) else 0)%Q
    (if 0 <? sum_int64 Clicks g
     then sum_float64 Spend g / inject_Z (sum_int64 Clicks g) else 0)%Q
    (if 0 <? sum_int64 Conversions g
     then sum_float64 Spend g / inject_Z (sum_int64 Conversions g) else 0)%Q
    (if Qltb 0 (sum_float64 Spend g)
     then sum_float64 Revenue g / sum_float64 Spend g else 0)%Q
    (if 0 <? sum_int64 Clicks g
     then inject_Z (sum_int64 Conversions g) / inject_Z (sum_int64 Clicks g) else 0)%Q
    now.

(** A zero sum in the denominator gives a zero ratio. *)
Definition zero_denominator_policy (r : CampaignInsights) : Prop :=
  (InsImpressions r = 0 -> CTR r = 0%Q)
  /\ (InsClicks r = 0 -> CPC r = 0%Q /\ ConversionRate r = 0%Q)
  /\ (InsConversions r = 0 -> CPA r = 0%Q)
  /\ ((InsSpend r == 0)%Q -> ROAS r = 0%Q).

(** 2024-01-01T00:00:00Z. *)
Definition jan1 : Time := 738885 * 86400.

Definition campaign1 : UUID := 0x0123456789abcdef0123456789abcdef%N.

(** Two events of one bucket with distinct deduplication keys. *)
Definition ev_a : CampaignEvent :=
  mkEvent 1%N campaign1 "meta" "stats" 1000 50 0 50 100 jan1 "all" "USD"
    "meta:c1:2024-01-01:a" 5 0.
Definition ev_b : CampaignEvent :=
  mkEvent 2%N campaign1 "meta" "stats" 500 25 0 25 50 jan1 "all" "USD"
    "meta:c1:2024-01-01:b" 5 0.

Definition bucket1 : BucketKey := (campaign1, 738885, "meta", "all").

(** Two snapshots of one logical fact: same key, different metrics. *)
Definition snap_old : CampaignEvent :=
  mkEvent 3%N campaign1 "meta" "stats" 70 7 0 7 14 jan1 "all" "USD"
    "meta:c1:2024-01-01" 5 0.
Definition snap_new : CampaignEvent :=
  mkEvent 4%N campaign1 "meta" "stats" 100 10 0 10 20 jan1 "all" "USD"
    "meta:c1:2024-01-01" 5 0.

Definition env_at (t : Time) : Env := mkEnv 99%N t t t.

Definition params1 : CampaignInsightsParams :=
  mkParams campaign1 jan1 jan1 None None "daily".

End Samples.
Export Samples.

(** The groups a re-aggregation reads and the rows its calls insert. *)

Module Reaggregation.

Definition reaggregation_groups (c : UUID) (s e : Time) (d : DB)
  : list (BucketKey * list CampaignEvent) :=
  group_by (filter (fun ev => reaggregation_where c s e ev = true) (campaign_events d)).

Definition rows_of_call (groups : list (BucketKey * list CampaignEvent))
  (call : Env * Faults) : list CampaignInsights :=
  if fail_query (snd call) then []
  else map (fun kg => aggregate_of (clickhouse_now (fst call)) (fst kg) (snd kg)) groups.


End Reaggregation.
Export Reaggregation.

(** Sample runs. *)

Module SampleRuns.

(** The world after the worker stored [ev_a] and then [ev_b]. *)
Definition world_ab : World :=
  run_ops [OpMessage (env_at 10) no_faults (Some ev_a);
           OpMessage (env_at 20) no_faults (Some ev_b)] initial_world.

(** Three re-aggregation calls, the second of which fails. *)
Definition calls3 : list (Env * Faults) :=
  [(env_at 100, no_faults);
   (env_at 200, mkFaults false false false false false true false false false);
   (env_at 300, no_faults)].

(** Two snapshots of one logical fact reach the store out of order: the
    worker that handles the newer snapshot has its clock ahead and cannot
    mark the key (Redis is unreachable); the older snapshot is redelivered
    afterwards to a worker whose clock is behind. *)
Definition mark_fails : Faults :=
  mkFaults false false true false false false false false false.

Definition world_out_of_order : World :=
  run_ops [OpMessage (mkEnv 99%N 50 50 10) mark_fails (Some snap_new);
           OpMessage (mkEnv 98%N 12 12 11) no_faults (Some snap_old)] initial_world.

(** One event delivered twice while the key could not be marked, then a
    re-aggregation of its day before the event table was merged. *)
Definition world_redelivered : World :=
  run_ops [OpMessage (env_at 10) mark_fails (Some ev_a);
           OpMessage (env_at 20) no_faults (Some ev_a);
           OpReaggregate (env_at 30) no_faults campaign1 jan1 jan1] initial_world.

End SampleRuns.
Export SampleRuns.

(** Closed forms of what [validateEvent] returns, used to state and
    prove its properties. *)

Module Validation.

Definition clamp_int (z : Z) : Z := if z <? 0 then 0 else z.
Definition clamp_float (q : Q) : Q := if Qltb q 0 then 0%Q else q.
Definition default_to (d s : string) : string := if String.eqb s "" then d else s.

(** The first required field that is missing, in the order of the checks. *)
Definition required_error (e : CampaignEvent) : option Error :=
  if (CampaignID e =? uuid_Nil)%N then Some ErrMissingCampaignID
  else if String.eqb (EvPlatform e) "" then Some ErrMissingPlatform
  else if IsZero (EventTime e) then Some ErrMissingEventTime
  else if String.eqb (DeduplicationKey e) "" then Some ErrMissingDeduplicationKey
  else None.

Definition with_fresh_id (env : Env) (e : CampaignEvent) : CampaignEvent :=
  set_ID (if (ID e =? uuid_Nil)%N then new_uuid env else ID e) e.

Definition normalised (env : Env) (e : CampaignEvent) : CampaignEvent :=
  mkEvent (if (ID e =? uuid_Nil)%N then new_uuid env else ID e)
    (CampaignID e) (EvPlatform e) (default_to "stats" (EventType e))
    (clamp_int (Impressions e)) (clamp_int (Clicks e)) (clamp_int (Conversions e))
    (clamp_float (Spend e)) (clamp_float (Revenue e))
    (EventTime e) (default_to "all" (Region e)) (default_to "USD" (Currency e))
    (DeduplicationKey e)
    (if IsZero (ReceivedAt e) then received_now env else ReceivedAt e)
    (ProcessedAt e).

(** The event [ProcessEvent] hands to [storeEvent]. *)
Definition stored_form (env : Env) (e : CampaignEvent) : CampaignEvent :=
  set_ProcessedAt (processed_now env) (normalised env e).

Definition is_required_error (err : Error) : Prop :=
  err = ErrMissingCampaignID \/ err = ErrMissingPlatform
  \/ err = ErrMissingEventTime \/ err = ErrMissingDeduplicationKey.

End Validation.
Export Validation.

(** Closed form of the outcome of [ProcessEvent] on a decoded event. *)

Module Outcome.

Definition stored_db (env : Env) (ev : CampaignEvent) (d : DB) : DB :=
  mkDB (campaign_events d ++ [ev])
       (campaign_insights d ++ [aggregate_of (clickhouse_now env) (bucket_of ev) [ev]]).

Definition already_processed (fl : Faults) (e : CampaignEvent) (w : World) : bool :=
  fst (IsDeduplicationKeyProcessed (fail_dedup_check fl) (DeduplicationKey e) (redis w)).

Definition marked (fl : Faults) (e : CampaignEvent) (w : World) : gmap string rvalue :=
  fst (MarkDeduplicationKeyProcessed (fail_mark fl) (DeduplicationKey e) (redis w)).

Definition outcome (env : Env) (fl : Faults) (e : CampaignEvent) (w : World)
  : option Error * World * list Effect :=
  let key := DeduplicationKey e in
  if already_processed fl e w then (None, w, [EDedupCheck key])
  else match required_error e with
       | Some err => (Some err, w, [EDedupCheck key; EValidate false])
       | None =>
           let ev := stored_form env e in
           if fail_store fl
           then (Some ErrClickHouse, w, [EDedupCheck key; EValidate true; EStore ev false])
           else (None, mkWorld (stored_db env ev (db w)) (marked fl e w),
                 [EDedupCheck key; EValidate true; EStore ev true; EMark key])
       end.

End Outcome.
Export Outcome.

(** No stored event and no aggregate row without a campaign. *)

Module Invariants.

Definition no_missing_campaign (d : DB) : Prop :=
  Forall (fun e => CampaignID e <> uuid_Nil) (campaign_events d)
  /\ Forall (fun r => InsCampaignID r <> uuid_Nil) (campaign_insights d).

End Invariants.
Export Invariants.

(** Sample events for the validator: one without a campaign, one without
    a campaign and without a platform. *)

Module SampleEvents.

Definition ev_no_campaign : CampaignEvent :=
  mkEvent 5%N uuid_Nil "meta" "stats" 10 1 0 1 2 jan1 "all" "USD" "meta:none:2024-01-01" 5 0.

Definition ev_no_campaign_no_platform : CampaignEvent :=
  mkEvent 6%N uuid_Nil "" "stats" 10 1 0 1 2 jan1 "all" "USD" "k6" 5 0.

End SampleEvents.
Export SampleEvents.

(** The shape of the statement [buildInsightsQuery] builds: which of the
    five optional conditions it holds, and its arguments. *)

Module QueryShape.

Definition query_flags (p : CampaignInsightsParams) : bool * bool * bool * bool * bool :=
  (negb (ParCampaignID p =? uuid_Nil)%N,
   negb (IsZero (StartDate p)),
   negb (IsZero (EndDate p)),
   match ParPlatform p with Some _ => true | None => false end,
   match ParRegion p with Some r => negb (String.eqb r "") | None => false end).

Definition where_suffix (flags : bool * bool * bool * bool * bool) : string :=
  let '(b1, b2, b3, b4, b5) := flags in
  (if b1 then " AND campaign_id = ?" else "") +:+
  (if b2 then " AND date >= ?" else "") +:+
  (if b3 then " AND date <= ?" else "") +:+
  (if b4 then " AND platform = ?" else "") +:+
  (if b5 then " AND region = ?" else "") +:+
  " ORDER BY date ASC".

Definition query_args (p : CampaignInsightsParams) : list arg :=
  ((if negb (ParCampaignID p =? uuid_Nil)%N
    then [ArgString (uuid_String (ParCampaignID p))] else []) ++
   (if negb (IsZero (StartDate p)) then [ArgTime (StartDate p)] else []) ++
   (if negb (IsZero (EndDate p)) then [ArgTime (EndDate p)] else []) ++
   (match ParPlatform p with Some pl => [ArgString pl] | None => [] end) ++
   (match ParRegion p with
    | Some r => if negb (String.eqb r "") then [ArgString r] else []
    | None => []
    end))%list.

(** Two queries that differ in granularity only, and two that differ in
    a nil and an empty region only. *)
Definition params_weekly : CampaignInsightsParams :=
  mkParams campaign1 jan1 jan1 None None "weekly".
Definition params_empty_region : CampaignInsightsParams :=
  mkParams campaign1 jan1 jan1 None (Some "") "daily".

End QueryShape.
Export QueryShape.

(** A world whose cache holds an empty list under the key of [params1]
    and whose tables are empty. *)

Module SampleCache.

Definition world_empty_cached : World :=
  mkWorld empty_db (<[getCacheKey params1 := RJson []]> ∅).

End SampleCache.
Export SampleCache.

(** What the worker stores. *)

Module StoredEvents.

(** An event as the worker hands it to [storeEvent]: the required fields
    are present, no metric is negative and the optional texts are set. *)
Definition well_formed_event (ev : CampaignEvent) : Prop :=
  CampaignID ev <> uuid_Nil /\ EvPlatform ev <> "" /\ EventTime ev <> 0
  /\ DeduplicationKey ev <> ""
  /\ clamped ev
  /\ EventType ev <> "" /\ Region ev <> "" /\ Currency ev <> "".

(** An event with negative clicks and spend and empty optional texts. *)
Definition ev_negative : CampaignEvent :=
  mkEvent uuid_Nil campaign1 "meta" "" 10 (-5) 0 (-3) 2 jan1 "" "" "meta:c1:neg" 0 0.

End StoredEvents.
Export StoredEvents.

(** Vocabulary for the query side. *)

Module QueryVocabulary.

Definition set_StartDate (t : Time) (p : CampaignInsightsParams) : CampaignInsightsParams :=
  mkParams (ParCampaignID p) t (EndDate p) (ParPlatform p) (ParRegion p) (Granularity p).

Definition set_EndDate (t : Time) (p : CampaignInsightsParams) : CampaignInsightsParams :=
  mkParams (ParCampaignID p) (StartDate p) t (ParPlatform p) (ParRegion p) (Granularity p).

(** The number of [?] in a statement. *)
Fixpoint placeholders (s : string) : nat :=
  match s with
  | EmptyString => O
  | String c rest => ((if Ascii.eqb c "?" then 1 else 0) + placeholders rest)%nat
  end.

(** The keys [TriggerReaggregation] drops from the cache for a campaign. *)
Definition cache_prefix (campaignID : UUID) : string :=
  "insights:" +:+ uuid_String campaignID +:+ ":".

(** What the filters of a query ask of a row. *)
Definition matches (p : CampaignInsightsParams) (r : CampaignInsights) : Prop :=
  (ParCampaignID p <> uuid_Nil -> InsCampaignID r = ParCampaignID p)
  /\ (StartDate p <> 0 -> StartDate p <= date_to_time (InsDate r))
  /\ (EndDate p <> 0 -> date_to_time (InsDate r) <= EndDate p)
  /\ (forall pl, ParPlatform p = Some pl -> InsPlatform r = pl)
  /\ (forall reg, ParRegion p = Some reg -> reg <> "" -> InsRegion r = reg).

Definition by_date (a b : CampaignInsights) : Prop := InsDate a <= InsDate b.

End QueryVocabulary.
Export QueryVocabulary.

(** ** Rate limiter (package [middlewares]) and its installation by
    [SetupRouter] *)

Module RateLimiter.

(** The counters the limiter keeps in Redis: the number stored under a
    key, and the instant the key expires ([None]: no expiry). *)
Definition counter : Type := Z * option Time.

(** A key as a request at time [now] finds it: an expired key is gone. *)
Definition live (now : Time) (st : gmap string counter) (key : string) : option counter :=
  match st !! key with
  | Some (n, Some exp) => if now <? exp then Some (n, Some exp) else None
  | Some (n, None) => Some (n, None)
  | None => None
  end.

(** What the handler does with the request. *)
Inductive Verdict :=
  | Proceed (remaining : option Z)
  | TooManyRequests (limit retry_after : Z).

(** The key: the user when the request is authenticated, the client
    address otherwise. *)
Definition limit_key (user_id : option UUID) (client_ip : string) : string :=
  match user_id with
  | Some u => "rate_limit:" +:+ uuid_String u
  | None => "rate_limit:" +:+ client_ip
  end.

(** [SET key 1] with the period as expiration; an expiration that is not
    positive sets no expiry. *)
Definition set_first (now period : Z) (key : string) (st : gmap string counter)
  : gmap string counter :=
  <[key := (1, if 0 <? period then Some (now + period) else None)]> st.

(** [INCR key]: the expiry is kept; a key that is gone is created at 1
    without expiry. *)
Definition incr (now : Time) (key : string) (st : gmap string counter)
  : gmap string counter :=
  match live now st key with
  | Some (n, exp) => <[key := (n + 1, exp)]> st
  | None => <[key := (1, None)]> st
  end.

(** The remaining time to live as the handler reports it, in seconds. *)
Definition retry_after (now : Time) (st : gmap string counter) (key : string) : Z :=
  match live now st key with
  | Some (_, Some exp) => exp - now
  | _ => 0
  end.

(** The handler [RateLimit rate period] on one request. [fail_get] and
    [fail_write] are Redis errors other than a missing key. *)
Definition RateLimit (rate period : Z) (now : Time) (fail_get fail_write : bool)
  (key : string) (st : gmap string counter) : Verdict * gmap string counter :=
  if fail_get then (Proceed None, st)
  else
    let count := match live now st key with Some (n, _) => n | None => 0 end in
    if rate <=? count then (TooManyRequests rate (retry_after now st key), st)
    else if fail_write then (Proceed None, st)
    else
      let st' := if count =? 0 then set_first now period key st else incr now key st in
      (Proceed (Some (rate - count - 1)), st').

(** The rate [SetupRouter] installs for a configured value. *)
Definition installed_rate (configured : Z) : Z :=
  if configured <=? 0 then 100 else configured.

Definition installed_period : Z := 60.

(** Requests of one key at the given instants, Redis answering. *)
Fixpoint serve (rate period : Z) (key : string) (times : list Time)
  (st : gmap string counter) : list Verdict * gmap string counter :=
  match times with
  | [] => ([], st)
  | now :: rest =>
      let '(d, st') := RateLimit rate period now false false key st in
      let '(ds, st'') := serve rate period key rest st' in
      (d :: ds, st'')
  end.

Definition proceeds (d : Verdict) : bool :=
  match d with Proceed _ => true | TooManyRequests _ _ => false end.

Definition allowed (ds : list Verdict) : nat :=
  length (List.filter proceeds ds).

End RateLimiter.
Export RateLimiter.

(** Events whose summed impressions leave [Int64]. *)

Module SampleOverflow.

(** Two events of one bucket, each with 2^62 impressions. *)
Definition ev_big_a : CampaignEvent :=
  mkEvent 5%N campaign1 "meta" "stats" (2 ^ 62) 1 0 1 2 jan1 "all" "USD"
    "meta:c1:2024-01-01:big-a" 5 0.
Definition ev_big_b : CampaignEvent :=
  mkEvent 6%N campaign1 "meta" "stats" (2 ^ 62) 1 0 1 2 jan1 "all" "USD"
    "meta:c1:2024-01-01:big-b" 5 0.

(** The worker stores both, then their day is re-aggregated. *)
Definition world_big : World :=
  run_ops [OpMessage (env_at 10) no_faults (Some ev_big_a);
           OpMessage (env_at 20) no_faults (Some ev_big_b);
           OpReaggregate (env_at 30) no_faults campaign1 jan1 jan1] initial_world.

End SampleOverflow.
Export SampleOverflow.

(** Sample queries and the worlds they leave. *)

Module SampleQueries.

(** [world_ab] after a re-aggregation of the day of its two events. *)
Definition world_ab_reaggregated : World :=
  snd (fst (TriggerReaggregation (env_at 30) no_faults campaign1 jan1 jan1 world_ab)).

(** [world_ab] after the query [params1] was answered from the database,
    which leaves its rows in the cache. *)
Definition world_ab_cached : World :=
  snd (fst (GetCampaignInsights no_faults params1 world_ab)).

(** The query [params1] with its first date one second later: no row of
    [world_ab] matches it. *)
Definition params_later : CampaignInsightsParams :=
  set_StartDate (jan1 + 1) params1.

(** A query whose two dates are 2024-01-01T23:30:00Z. *)
Definition params_evening : CampaignInsightsParams :=
  mkParams campaign1 (jan1 + 84600) (jan1 + 84600) None None "daily".

End SampleQueries.
Export SampleQueries.

(** Vocabulary for the text of a cache key. *)

Module KeyText.

(** Whether a text holds the separator of the parts of a key. *)
Fixpoint has_colon (s : string) : bool :=
  match s with
  | EmptyString => false
  | String c rest => Ascii.eqb c ":" || has_colon rest
  end.

End KeyText.
Export KeyText.

(** * Properties *)

(** ** Text forms *)

Example format_date_zero : format_date 0 = "0001-01-01".
Proof. reflexivity. Qed.

Example format_date_2024 : format_date (jan1 + 3600) = "2024-01-01".
Proof. reflexivity. Qed.

Example format_date_leap : format_date (738944 * 86400) = "2024-02-29".
Proof. reflexivity. Qed.

Example format_date_five_digits : format_date (3652059 * 86400) = "10000-01-01".
Proof. vm_compute. reflexivity. Qed.

Example format_date_before_year_one : format_date (- 366 * 86400 - 1) = "-0001-12-31".
Proof. vm_compute. reflexivity. Qed.

Example format_date_at_east :
  format_date_at 0 (jan1 + 84600) = "2024-01-01"
  /\ format_date_at 3600 (jan1 + 84600) = "2024-01-02".
Proof. vm_compute. split; reflexivity. Qed.

Example uuid_String_Nil : uuid_String uuid_Nil = "00000000-0000-0000-0000-000000000000".
Proof. reflexivity. Qed.

Example uuid_String_sample :
  uuid_String campaign1 = "01234567-89ab-cdef-0123-456789abcdef".
Proof. reflexivity. Qed.

Lemma string_app_assoc a b c : (a +:+ b) +:+ c = a +:+ (b +:+ c).
Proof.
  induction a as [|x a IH]; [reflexivity|].
  change ((String x a +:+ b) +:+ c) with (String x ((a +:+ b) +:+ c)).
  rewrite IH. reflexivity.
Qed.

Lemma string_app_inv_head a x y : a +:+ x = a +:+ y -> x = y.
Proof.
  induction a as [|c a IH]; intros H; [exact H|].
  change (String c (a +:+ x) = String c (a +:+ y)) in H. injection H as H. exact (IH H).
Qed.

Lemma string_length_app a b :
  String.length (a +:+ b) = (String.length a + String.length b)%nat.
Proof.
  induction a as [|c a IH]; [reflexivity|].
  change (String c a +:+ b) with (String c (a +:+ b)). cbn [String.length].
  rewrite IH. reflexivity.
Qed.

Lemma string_app_inv_tail a : forall b x, a +:+ x = b +:+ x -> a = b.
Proof.
  induction a as [|c a IH]; intros [|c' b] x H.
  - reflexivity.
  - exfalso. apply (f_equal String.length) in H.
    rewrite !string_length_app in H. cbn [String.length] in H. lia.
  - exfalso. apply (f_equal String.length) in H.
    rewrite !string_length_app in H. cbn [String.length] in H. lia.
  - change (String c (a +:+ x) = String c' (b +:+ x)) in H.
    injection H as -> H. rewrite (IH b x H). reflexivity.
Qed.

Lemma has_colon_app a b : has_colon (a +:+ b) = has_colon a || has_colon b.
Proof.
  induction a as [|c a IH]; [reflexivity|].
  change (String c a +:+ b) with (String c (a +:+ b)). cbn [has_colon].
  rewrite IH. apply orb_assoc.
Qed.

Lemma dec_digit_no_colon n : Ascii.eqb (dec_digit n) ":" = false.
Proof.
  unfold dec_digit.
  repeat match goal with
         | |- context [match ?x with _ => _ end] => destruct x
         end; reflexivity.
Qed.

Lemma dec_fixed_no_colon w : forall n, has_colon (dec_fixed w n) = false.
Proof.
  induction w as [|w IH]; intros n; [reflexivity|].
  cbn [dec_fixed]. rewrite has_colon_app, IH. cbn [has_colon].
  rewrite dec_digit_no_colon. reflexivity.
Qed.

(** A printed date holds no colon, whatever the year. *)
Lemma format_date_no_colon t : has_colon (format_date t) = false.
Proof.
  unfold format_date. destruct (civil_of_day (toDate t)) as [[y m] d].
  unfold appendInt. rewrite !has_colon_app, !dec_fixed_no_colon.
  destruct (y <? 0); reflexivity.
Qed.

(** Two texts without a colon, each followed by a colon, are read back
    from what they start. *)
Lemma split_at_colon a : forall b x y,
  has_colon a = false -> has_colon b = false ->
  a +:+ ":" +:+ x = b +:+ ":" +:+ y -> a = b /\ x = y.
Proof.
  induction a as [|c a IH]; intros [|c' b] x y Ha Hb H.
  - change (String ":" x = String ":" y) in H. injection H as H.
    split; [reflexivity | exact H].
  - change (String ":" x = String c' (b +:+ ":" +:+ y)) in H.
    injection H as H _. subst c'. discriminate Hb.
  - change (String c (a +:+ ":" +:+ x) = String ":" y) in H.
    injection H as H _. subst c. discriminate Ha.
  - change (String c (a +:+ ":" +:+ x) = String c' (b +:+ ":" +:+ y)) in H.
    injection H as Hc H. subst c'. cbn [has_colon] in Ha, Hb.
    apply orb_false_iff in Ha as [_ Ha]. apply orb_false_iff in Hb as [_ Hb].
    destruct (IH b x y Ha Hb H) as [-> ->]. split; reflexivity.
Qed.

(** ** Arithmetic of the aggregate functions *)

Lemma wrap64_small z : in_int64 z -> wrap64 z = z.
Proof.
  unfold in_int64, int64_min, int64_max, wrap64. intros Hz.
  rewrite Z.mod_small by lia. lia.
Qed.

Lemma zsum_nonneg (col : CampaignEvent -> Z) g :
  Forall (fun e => 0 <= col e) g -> 0 <= zsum col g.
Proof.
  induction 1 as [|e g He _ IH]; simpl; lia.
Qed.

Lemma sum_int64_from (col : CampaignEvent -> Z) g : forall acc,
  Forall (fun e => 0 <= col e) g ->
  0 <= acc -> acc + zsum col g <= int64_max ->
  fold_left (fun a e => wrap64 (a + col e)) g acc = acc + zsum col g.
Proof.
  induction g as [|e g IH]; intros acc Hall Hacc Hfit; simpl in *.
  - lia.
  - inversion Hall as [|? ? He Hg]; subst.
    pose proof (zsum_nonneg col g Hg) as Hpos.
    rewrite wrap64_small by (unfold in_int64, int64_min, int64_max in *; lia).
    rewrite IH; [lia | assumption | lia | lia].
Qed.

Lemma sum_int64_fits (col : CampaignEvent -> Z) g :
  Forall (fun e => 0 <= col e) g -> zsum col g <= int64_max ->
  sum_int64 col g = zsum col g.
Proof.
  intros Hall Hfit. unfold sum_int64.
  rewrite sum_int64_from; [lia | assumption | lia | lia].
Qed.

Lemma sum_float64_from (col : CampaignEvent -> Q) (g : list CampaignEvent) : forall acc,
  Forall (fun e => (0 <= col e)%Q) g -> (0 <= acc)%Q ->
  (0 <= fold_left (fun a e => (a + col e)%Q) g acc)%Q.
Proof.
  induction g as [|e g IH]; intros acc Hall Hacc; simpl.
  - assumption.
  - inversion Hall as [|? ? He Hg]; subst. apply IH; [assumption|].
    replace 0%Q with (0 + 0)%Q by reflexivity. apply Qplus_le_compat; assumption.
Qed.

Lemma sum_float64_nonneg (col : CampaignEvent -> Q) g :
  Forall (fun e => (0 <= col e)%Q) g -> (0 <= sum_float64 col g)%Q.
Proof.
  intros Hall. apply sum_float64_from; [assumption | apply Qle_refl].
Qed.

Lemma sql_divide_int a z :
  (0 <? z) = true -> sql_divide a (inject_Z z) = Some (a / inject_Z z)%Q.
Proof.
  intros Hz. apply Z.ltb_lt in Hz. unfold sql_divide.
  destruct (Qeq_bool (inject_Z z) 0) eqn:E; [|reflexivity].
  apply Qeq_bool_iff in E. unfold Qeq, inject_Z in E. simpl in E. lia.
Qed.

Lemma sql_divide_float a s :
  Qltb 0 s = true -> sql_divide a s = Some (a / s)%Q.
Proof.
  unfold Qltb, sql_divide. intros Hs.
  destruct (Qeq_bool s 0) eqn:E; [|reflexivity].
  apply Qeq_bool_iff in E. apply negb_true_iff in Hs.
  assert (Qle_bool s 0 = true) as Hle.
  { apply Qle_bool_iff. rewrite E. apply Qle_refl. }
  congruence.
Qed.

(** The row the view computes for a group, written out: the guards make
    every division one by a positive number, so the SELECT has no fault. *)
Lemma mv_select_row_value now c d p r g :
  mv_select_row now (c, d, p, r) g =
  Some (mkInsights c d p r
          (sum_int64 Impressions g) (sum_int64 Clicks g) (sum_int64 Conversions g)
          (sum_float64 Spend g) (sum_float64 Revenue g)
          (if 0 <? sum_int64 Impressions g
           then inject_Z (sum_int64 Clicks g) / inject_Z (sum_int64 Impressions g) else 0)%Q
          (if 0 <? sum_int64 Clicks g
           then sum_float64 Spend g / inject_Z (sum_int64 Clicks g) else 0)%Q
          (if 0 <? sum_int64 Conversions g
           then sum_float64 Spend g / inject_Z (sum_int64 Conversions g) else 0)%Q
          (if Qltb 0 (sum_float64 Spend g)
           then sum_float64 Revenue g / sum_float64 Spend g else 0)%Q
          (if 0 <? sum_int64 Clicks g
           then inject_Z (sum_int64 Conversions g) / inject_Z (sum_int64 Clicks g) else 0)%Q
          now).
Proof.
  unfold mv_select_row.
  destruct (0 <? sum_int64 Impressions g) eqn:Hi;
  destruct (0 <? sum_int64 Clicks g) eqn:Hc;
  destruct (0 <? sum_int64 Conversions g) eqn:Hv;
  destruct (Qltb 0 (sum_float64 Spend g)) eqn:Hs;
  repeat (rewrite sql_divide_int by assumption);
  repeat (rewrite sql_divide_float by assumption);
  reflexivity.
Qed.

(** The two SELECT lists are the same expression. *)
Lemma select_rows_agree now k g :
  reaggregation_select_row now k g = mv_select_row now k g.
Proof. reflexivity. Qed.

Lemma guard_int_policy (s : Z) (q : Q) :
  0 <= s -> (if 0 <? s then q else 0%Q) = (if s =? 0 then 0%Q else q).
Proof.
  intros Hs. destruct (0 <? s) eqn:E1, (s =? 0) eqn:E2; try reflexivity;
    try apply Z.ltb_lt in E1; try apply Z.ltb_ge in E1;
    try apply Z.eqb_eq in E2; try apply Z.eqb_neq in E2; lia.
Qed.

Lemma guard_float_policy (s q : Q) :
  (0 <= s)%Q -> (if Qltb 0 s then q else 0%Q) = (if Qeq_bool s 0 then 0%Q else q).
Proof.
  intros Hs. unfold Qltb.
  destruct (Qle_bool s 0) eqn:E1, (Qeq_bool s 0) eqn:E2; simpl; try reflexivity.
  - apply Qle_bool_iff in E1.
    assert (s == 0)%Q as Heq by (apply Qle_antisym; assumption).
    apply Qeq_bool_iff in Heq. congruence.
  - apply Qeq_bool_iff in E2.
    assert (Qle_bool s 0 = true) as Hle by (apply Qle_bool_iff; rewrite E2; apply Qle_refl).
    congruence.
Qed.

Lemma mv_select_row_aggregate now k g :
  mv_select_row now k g = Some (aggregate_of now k g).
Proof. destruct k as [[[c d] p] r]. apply mv_select_row_value. Qed.

Lemma aggregate_of_now n1 n2 k g :
  without_updated_at (aggregate_of n1 k g) = without_updated_at (aggregate_of n2 k g).
Proof. destruct k as [[[c d] p] r]. reflexivity. Qed.

Lemma aggregate_of_key now k g : insights_key (aggregate_of now k g) = k.
Proof. destruct k as [[[c d] p] r]. reflexivity. Qed.

Lemma aggregate_of_version now k g : UpdatedAt (aggregate_of now k g) = now.
Proof. destruct k as [[[c d] p] r]. reflexivity. Qed.

Lemma aggregate_of_sums now k g : sums_of g (aggregate_of now k g).
Proof. destruct k as [[[c d] p] r]. repeat split. Qed.

Lemma aggregate_of_guards now k g : guard_policy (aggregate_of now k g).
Proof. destruct k as [[[c d] p] r]. repeat split. Qed.

Lemma aggregate_of_zero now k g : zero_denominator_policy (aggregate_of now k g).
Proof.
  destruct k as [[[c d] p] r]. unfold zero_denominator_policy; simpl.
  split; [|split; [|split]].
  - intros H0. rewrite H0. reflexivity.
  - intros H0. rewrite H0. split; reflexivity.
  - intros H0. rewrite H0. reflexivity.
  - intros H.
  destruct (Qltb 0 (sum_float64 Spend g)) eqn:E; [|reflexivity].
  unfold Qltb in E. apply negb_true_iff in E.
  assert (Qle_bool (sum_float64 Spend g) 0 = true) as Hle
    by (apply Qle_bool_iff; rewrite H; apply Qle_refl).
  congruence.
Qed.

Lemma aggregate_of_policy now k g :
  Forall clamped g -> sums_fit g -> ratio_policy (aggregate_of now k g).
Proof.
  intros Hc (Hi & Hk & Hv). destruct k as [[[c d] p] r].
  assert (Forall (fun e => 0 <= Impressions e) g) as Pi
    by (eapply Forall_impl; [exact Hc | intros e He; apply He]).
  assert (Forall (fun e => 0 <= Clicks e) g) as Pk
    by (eapply Forall_impl; [exact Hc | intros e He; apply He]).
  assert (Forall (fun e => 0 <= Conversions e) g) as Pv
    by (eapply Forall_impl; [exact Hc | intros e He; apply He]).
  assert (Forall (fun e => (0 <= Spend e)%Q) g) as Ps
    by (eapply Forall_impl; [exact Hc | intros e He; apply He]).
  pose proof (zsum_nonneg _ _ Pi) as Ni. pose proof (zsum_nonneg _ _ Pk) as Nk.
  pose proof (zsum_nonneg _ _ Pv) as Nv.
  pose proof (sum_int64_fits _ _ Pi Hi) as Ei.
  pose proof (sum_int64_fits _ _ Pk Hk) as Ek.
  pose proof (sum_int64_fits _ _ Pv Hv) as Ev.
  pose proof (sum_float64_nonneg _ _ Ps) as Ns.
  unfold ratio_policy; simpl.
  repeat split.
  - apply guard_int_policy. lia.
  - apply guard_int_policy. lia.
  - apply guard_int_policy. lia.
  - apply guard_float_policy. assumption.
  - apply guard_int_policy. lia.
Qed.

Lemma mapM_total {A B} (f : A -> option B) (g : A -> B) (l : list A) :
  (forall x, f x = Some (g x)) -> mapM f l = Some (map g l).
Proof.
  intros Hf. induction l as [|x l IH]; simpl; [reflexivity|].
  rewrite Hf, IH. reflexivity.
Qed.

Lemma mv_select_value now rows :
  mv_select now rows =
  Some (map (fun kg => aggregate_of now (fst kg) (snd kg)) (group_by rows)).
Proof.
  unfold mv_select. apply mapM_total. intros kg. apply mv_select_row_aggregate.
Qed.

Lemma reaggregation_select_value now c s e rows :
  reaggregation_select now c s e rows =
  Some (map (fun kg => aggregate_of now (fst kg) (snd kg))
          (group_by (filter (fun ev => reaggregation_where c s e ev = true) rows))).
Proof.
  unfold reaggregation_select. apply mapM_total. intros kg.
  rewrite select_rows_agree. apply mv_select_row_aggregate.
Qed.

Lemma erase_aggregates n1 n2 (groups : list (BucketKey * list CampaignEvent)) :
  map without_updated_at (map (fun kg => aggregate_of n1 (fst kg) (snd kg)) groups) =
  map without_updated_at (map (fun kg => aggregate_of n2 (fst kg) (snd kg)) groups).
Proof.
  rewrite !map_map. apply map_ext. intros kg. apply aggregate_of_now.
Qed.

(** ** C4: the ratios of an aggregate row *)

(** C4 as stated fails. Two events that [validateEvent] accepts as they
    are, each with 2^62 impressions and one click, make the [Int64] sum of
    the impressions wrap around to -2^63: the sum is not 0, and yet both
    SELECT lists give CTR 0, not the quotient of the sums. The worker and a
    re-aggregation leave that row as the Aggregate Row of the bucket. *)
Lemma wrapped_sum_is_not_the_quotient :
  validateEvent (env_at 10) ev_big_a = (ev_big_a, None)
  /\ validateEvent (env_at 20) ev_big_b = (ev_big_b, None)
  /\ Forall clamped [ev_big_a; ev_big_b]
  /\ exists row,
       mv_select_row 30 bucket1 [ev_big_a; ev_big_b] = Some row
       /\ reaggregation_select_row 30 bucket1 [ev_big_a; ev_big_b] = Some row
       /\ InsImpressions row = - 2 ^ 63
       /\ InsClicks row = 2
       /\ CTR row = 0%Q
       /\ ~ (CTR row == inject_Z (InsClicks row) / inject_Z (InsImpressions row))%Q
       /\ ~ ratio_policy row
       /\ (exists e1 e2, campaign_events (db world_big) = [e1; e2]
             /\ Impressions e1 = 2 ^ 62 /\ Impressions e2 = 2 ^ 62)
       /\ without_updated_at <$> aggregate_row bucket1 (db world_big)
          = Some (without_updated_at row).
Proof.
  split; [vm_compute; reflexivity|].
  split; [vm_compute; reflexivity|].
  split; [repeat constructor; try (simpl; lia); discriminate|].
  eexists. split; [vm_compute; reflexivity|].
  split; [vm_compute; reflexivity|].
  split; [reflexivity|]. split; [reflexivity|]. split; [reflexivity|].
  split; [intros H; vm_compute in H; discriminate H|].
  split; [intros [H _]; vm_compute in H; discriminate H|].
  split; [eexists; eexists; split; [vm_compute; reflexivity | split; reflexivity]|].
  vm_compute. reflexivity.
Qed.

(** C4, amended. For every bucket, neither SELECT list faults: each
    yields a row whose sums are the [Int64] and [Float64] sums of the
    bucket's events and whose ratio is 0 whenever the sum in its
    denominator is 0, the quotient of the sums whenever that sum is
    positive, and 0 when it is negative; for events without a negative
    metric whose integer sums stay within [Int64] no sum is negative, so
    that the ratio is the quotient of the sums in every case other than a
    zero denominator. *)
Theorem ratios_zero_on_zero_denominator (now : Time) (k : BucketKey)
  (g : list CampaignEvent) :
  exists row,
    mv_select_row now k g = Some row
    /\ reaggregation_select_row now k g = Some row
    /\ sums_of g row
    /\ zero_denominator_policy row
    /\ guard_policy row
    /\ (Forall clamped g -> sums_fit g -> ratio_policy row).
Proof.
  exists (aggregate_of now k g).
  split; [apply mv_select_row_aggregate|].
  split; [rewrite select_rows_agree; apply mv_select_row_aggregate|].
  split; [apply aggregate_of_sums|].
  split; [apply aggregate_of_zero|].
  split; [apply aggregate_of_guards|].
  apply aggregate_of_policy.
Qed.

Lemma ratios_zero_on_zero_denominator_witness :
  exists row,
    mv_select_row 30 bucket1 [ev_a; ev_b] = Some row
    /\ InsImpressions row = 1500 /\ CPA row = 0%Q
    /\ ratio_policy row.
Proof.
  destruct (ratios_zero_on_zero_denominator 30 bucket1 [ev_a; ev_b])
    as (row & Hmv & _ & _ & _ & _ & Hpol).
  exists row. split; [exact Hmv|].
  vm_compute in Hmv. injection Hmv as <-.
  split; [reflexivity|]. split; [reflexivity|].
  apply Hpol.
  - repeat constructor; try (simpl; lia); discriminate.
  - unfold sums_fit, int64_max; simpl. lia.
Defined.

(** ** The merge of a [ReplacingMergeTree] *)

Section Merge.
Context {Row Key V : Type} `{EqDecision Key}.
Variable sorting_key : Row -> Key.
Variable version : Row -> Z.
Variable view : Row -> V.

Lemma replacing_pick_app k (a b : list Row) : forall acc,
  replacing_pick sorting_key version k acc (a ++ b) =
  replacing_pick sorting_key version k (replacing_pick sorting_key version k acc a) b.
Proof.
  induction a as [|r a IH]; intros acc; simpl; [reflexivity|].
  destruct (decide (sorting_key r = k)); apply IH.
Qed.

Lemma replacing_pick_origin k (l : list Row) : forall acc o,
  replacing_pick sorting_key version k acc l = Some o ->
  acc = Some o \/ (In o l /\ sorting_key o = k).
Proof.
  induction l as [|r l IH]; intros acc o Hp; simpl in Hp; [left; exact Hp|].
  destruct (decide (sorting_key r = k)) as [Hk|Hk].
  - apply IH in Hp as [Hp|[Hp Hko]].
    + destruct acc as [a|]; simpl in Hp.
      * destruct (version r <? version a); injection Hp as <-;
          [left; reflexivity | right; split; [left; reflexivity | exact Hk]].
      * injection Hp as <-. right; split; [left; reflexivity | exact Hk].
    + right; split; [right; exact Hp | exact Hko].
  - apply IH in Hp as [Hp|[Hp Hko]]; [left; exact Hp | right; split; [right; exact Hp|exact Hko]].
Qed.

Lemma replacing_pick_none k (l : list Row) : forall acc,
  (forall r, In r l -> sorting_key r <> k) ->
  replacing_pick sorting_key version k acc l = acc.
Proof.
  induction l as [|r l IH]; intros acc Hno; simpl; [reflexivity|].
  destruct (decide (sorting_key r = k)) as [Hk|Hk].
  - exfalso. apply (Hno r); [left; reflexivity | exact Hk].
  - apply IH. intros r' Hr'. apply Hno. right; exact Hr'.
Qed.

(** Once the picked row has the view [v], rows with that view keep it. *)
Lemma replacing_pick_keeps k v (l : list Row) : forall o,
  (forall r, In r l -> sorting_key r = k -> view r = v) ->
  view o = v ->
  exists o', replacing_pick sorting_key version k (Some o) l = Some o' /\ view o' = v.
Proof.
  induction l as [|r l IH]; intros o Hall Ho; simpl; [exists o; split; [reflexivity|exact Ho]|].
  assert (forall r', In r' l -> sorting_key r' = k -> view r' = v) as Hrest
    by (intros r' Hr'; apply Hall; right; exact Hr').
  destruct (decide (sorting_key r = k)) as [Hk|Hk].
  - destruct (version r <? version o).
    + apply IH; assumption.
    + apply IH; [assumption|]. apply Hall; [left; reflexivity | exact Hk].
  - apply IH; assumption.
Qed.

(** Rows with the view [v] and versions not below the row picked so far
    replace it. *)
Lemma replacing_pick_latest k v (l : list Row) : forall acc,
  (forall r, In r l -> sorting_key r = k -> view r = v) ->
  (forall o r, acc = Some o -> In r l -> sorting_key r = k -> version o <= version r) ->
  (exists r, In r l /\ sorting_key r = k) ->
  exists o', replacing_pick sorting_key version k acc l = Some o' /\ view o' = v.
Proof.
  induction l as [|r l IH]; intros acc Hall Hver [r0 [Hin Hk0]]; [destruct Hin|].
  assert (forall r', In r' l -> sorting_key r' = k -> view r' = v) as Hrest
    by (intros r' Hr'; apply Hall; right; exact Hr').
  simpl. destruct (decide (sorting_key r = k)) as [Hk|Hk].
  - assert (supersede version acc r = r) as ->.
    { destruct acc as [o|]; simpl; [|reflexivity].
      assert (version o <= version r) as Hle
        by (apply (Hver o r); [reflexivity | left; reflexivity | exact Hk]).
      destruct (version r <? version o) eqn:E; [|reflexivity].
      apply Z.ltb_lt in E. lia. }
    apply replacing_pick_keeps; [assumption|].
    apply Hall; [left; reflexivity | exact Hk].
  - apply IH; [assumption | |].
    + intros o r' Ho Hr'. apply Hver; [exact Ho | right; exact Hr'].
    + destruct Hin as [<-|Hin]; [contradiction|]. exists r0. split; assumption.
Qed.
End Merge.

Lemma group_by_group rows k g :
  In (k, g) (group_by rows) -> g = filter (fun e => bucket_of e = k) rows.
Proof.
  unfold group_by. intros Hin. apply in_map_iff in Hin as (k' & Heq & _).
  injection Heq as <- <-. reflexivity.
Qed.

(** ** C3: re-aggregation converges *)

Lemma TriggerReaggregation_db env fl c s e w :
  db (snd (fst (TriggerReaggregation env fl c s e w))) =
  mkDB (campaign_events (db w))
       (campaign_insights (db w) ++ rows_of_call (reaggregation_groups c s e (db w)) (env, fl)).
Proof.
  unfold TriggerReaggregation, rows_of_call, reaggregation_groups. simpl.
  destruct (fail_query fl); simpl.
  - rewrite app_nil_r. destruct (db w); reflexivity.
  - rewrite reaggregation_select_value. reflexivity.
Qed.






Example reaggregation_sample :
  InsImpressions <$>
    aggregate_row bucket1 (db (reaggregate_times calls3 campaign1 jan1 jan1 world_ab))
  = Some 1500.
Proof. vm_compute. reflexivity. Qed.

(** ** C1: what the incremental path computes *)

Lemma group_by_single ev : group_by [ev] = [(bucket_of ev, [ev])].
Proof.
  unfold group_by. cbn [map distinct]. rewrite filter_nil. cbn [map].
  rewrite filter_cons, filter_nil.
  destruct (decide (bucket_of ev = bucket_of ev)); [reflexivity | contradiction].
Qed.

(** One stored event makes the view insert the aggregate of that event
    alone: the view reads the inserted block, not the table. *)
Lemma storeEvent_block_aggregate env fl ev d :
  fail_store fl = false ->
  storeEvent env fl ev d =
  (mkDB (campaign_events d ++ [ev])
        (campaign_insights d ++ [aggregate_of (clickhouse_now env) (bucket_of ev) [ev]]),
   None).
Proof.
  intros Hok. unfold storeEvent, insert_events. rewrite Hok.
  rewrite mv_select_value, group_by_single. reflexivity.
Qed.

(** After two events of one bucket are stored one after the other, the
    Aggregate Row of the bucket is the aggregate of the second event
    alone, whatever the first one was. *)
Lemma incremental_row_of_last_event env1 env2 fl1 fl2 e1 e2 d :
  fail_store fl1 = false -> fail_store fl2 = false ->
  bucket_of e1 = bucket_of e2 ->
  clickhouse_now env1 <= clickhouse_now env2 ->
  (forall r0, In r0 (campaign_insights d) -> UpdatedAt r0 <= clickhouse_now env1) ->
  aggregate_row (bucket_of e2)
    (fst (storeEvent env2 fl2 e2 (fst (storeEvent env1 fl1 e1 d))))
  = Some (aggregate_of (clickhouse_now env2) (bucket_of e2) [e2]).
Proof.
  intros H1 H2 Hb Hle Hold.
  rewrite (storeEvent_block_aggregate env1 fl1 e1 d H1). cbn [fst].
  rewrite (storeEvent_block_aggregate env2 fl2 e2 _ H2). cbn [fst campaign_insights].
  unfold aggregate_row, final_lookup. cbn [campaign_insights].
  rewrite replacing_pick_app.
  destruct (replacing_pick_latest insights_key insights_version (fun r => r)
              (bucket_of e2)
              (aggregate_of (clickhouse_now env2) (bucket_of e2) [e2])
              [aggregate_of (clickhouse_now env2) (bucket_of e2) [e2]]
              (replacing_pick insights_key insights_version (bucket_of e2) None
                 (campaign_insights d ++
                  [aggregate_of (clickhouse_now env1) (bucket_of e1) [e1]])))
    as (o & Hpick & Ho).
  - intros r [<-|[]] _. reflexivity.
  - intros o r Ho [<-|[]] _.
    apply replacing_pick_origin in Ho as [Ho|[Ho _]]; [discriminate|].
    unfold insights_version. rewrite aggregate_of_version.
    apply in_app_or in Ho as [Ho|[<-|[]]].
    + specialize (Hold o Ho). lia.
    + rewrite aggregate_of_version. exact Hle.
  - eexists. split; [left; reflexivity | apply aggregate_of_key].
  - rewrite Hpick, Ho. reflexivity.
Qed.

(** C1, evaluated on the two events of the end-to-end scenario of one
    bucket (1000 and 500 impressions, distinct keys), stored one after the
    other: both are in the event log, the view has inserted one row per
    insert, each the aggregate of that insert alone, and the Aggregate Row
    of the bucket is the aggregate of the last insert (500 impressions),
    whereas the aggregate over all events of the bucket has 1500. *)
Theorem incremental_row_is_last_insert :
  map Impressions (campaign_events (db world_ab)) = [1000; 500]
  /\ map InsImpressions (campaign_insights (db world_ab)) = [1000; 500]
  /\ InsImpressions <$> aggregate_row bucket1 (db world_ab) = Some 500
  /\ InsImpressions <$> mv_select_row 20 bucket1 (campaign_events (db world_ab))
     = Some 1500
  /\ aggregate_row bucket1 (db world_ab) = mv_select_row 20 bucket1 [ev_b].
Proof. vm_compute. repeat split; reflexivity. Qed.

(** ** C5: the two paths on one set of events *)

(** C5, evaluated. Both paths apply one SELECT list, but not to the same
    events. Whatever the table holds, one stored event makes the view
    append the SELECT over that event alone, while a re-aggregation
    appends the SELECT over all stored events of the campaign and range.
    On the two events of one bucket that the worker stored one after the
    other (1000 and 500 impressions), the incremental path leaves the
    Aggregate Row of the last insert (500 impressions, 25 clicks) and a
    re-aggregation of the same, unchanged event table leaves the one over
    both events (1500 impressions, 75 clicks): the rows differ apart from
    [updated_at]. The ratio whose denominator is zero (CPA) is 0 on both
    paths. *)
Theorem paths_disagree_on_one_event_set :
  (forall (env : Env) (ev : CampaignEvent) (d : DB),
     exists row,
       mv_select_row (clickhouse_now env) (bucket_of ev) [ev] = Some row
       /\ storeEvent env no_faults ev d
          = (mkDB (campaign_events d ++ [ev]) (campaign_insights d ++ [row]), None))
  /\ (forall (env : Env) (c : UUID) (s e : Time) (w : World),
        exists rows,
          reaggregation_select (clickhouse_now env) c s e (campaign_events (db w))
            = Some rows
          /\ db (snd (fst (TriggerReaggregation env no_faults c s e w)))
             = mkDB (campaign_events (db w)) (campaign_insights (db w) ++ rows))
  /\ map Impressions (campaign_events (db world_ab)) = [1000; 500]
  /\ map bucket_of (campaign_events (db world_ab)) = [bucket1; bucket1]
  /\ campaign_events (db world_ab_reaggregated) = campaign_events (db world_ab)
  /\ exists incremental reaggregated,
       aggregate_row bucket1 (db world_ab) = Some incremental
       /\ aggregate_row bucket1 (db world_ab_reaggregated) = Some reaggregated
       /\ mv_select_row 20 bucket1 [ev_b] = Some incremental
       /\ reaggregation_select_row 30 bucket1 (campaign_events (db world_ab))
          = Some reaggregated
       /\ (InsImpressions incremental, InsClicks incremental, InsConversions incremental)
          = (500, 25, 0)
       /\ (InsImpressions reaggregated, InsClicks reaggregated, InsConversions reaggregated)
          = (1500, 75, 0)
       /\ (CPA incremental, CPA reaggregated) = (0%Q, 0%Q)
       /\ without_updated_at incremental <> without_updated_at reaggregated.
Proof.
  split.
  { intros env ev d. eexists. split; [apply mv_select_row_aggregate|].
    apply storeEvent_block_aggregate. reflexivity. }
  split.
  { intros env c s e w. eexists. split; [apply reaggregation_select_value|].
    rewrite TriggerReaggregation_db. reflexivity. }
  split; [vm_compute; reflexivity|].
  split; [vm_compute; reflexivity|].
  split; [vm_compute; reflexivity|].
  eexists. eexists.
  split; [vm_compute; reflexivity|].
  split; [vm_compute; reflexivity|].
  split; [vm_compute; reflexivity|].
  split; [vm_compute; reflexivity|].
  split; [reflexivity|]. split; [reflexivity|]. split; [reflexivity|].
  intros H. apply (f_equal InsImpressions) in H. vm_compute in H. discriminate H.
Qed.

(** ** C2: superseding appends *)

(** In the event log, of two rows with one sorting key and different
    [processed_at] the merge keeps the one with the greater
    [processed_at], whichever was appended first. *)
Lemma same_key_supersedes e1 e2 :
  event_key e1 = event_key e2 -> ProcessedAt e1 < ProcessedAt e2 ->
  final event_key event_version [e1; e2] = [e2]
  /\ final event_key event_version [e2; e1] = [e2].
Proof.
  intros Hk Hlt. unfold final, final_lookup.
  cbn [map distinct]. rewrite !Hk. rewrite filter_nil, filter_cons, filter_nil.
  destruct (decide (event_key e2 <> event_key e2)) as [Hne|_]; [contradiction|].
  cbn [omap list_omap replacing_pick]. rewrite Hk.
  destruct (decide (event_key e2 = event_key e2)) as [_|Hne]; [|contradiction].
  cbn [supersede]. unfold event_version.
  assert ((ProcessedAt e2 <? ProcessedAt e1) = false) as -> by (apply Z.ltb_ge; lia).
  assert ((ProcessedAt e1 <? ProcessedAt e2) = true) as -> by (apply Z.ltb_lt; lia).
  split; reflexivity.
Qed.

(** C2, evaluated on two failing runs. Out of order: the snapshot with
    the greater [processed_at] (100 impressions) is the one logical row of
    the event log, and the Aggregate Row of its bucket shows the
    superseded snapshot (70 impressions). Redelivered: one logical row
    (1000 impressions), and after a re-aggregation the Aggregate Row
    counts it twice (2000 impressions). *)
Theorem superseded_append_in_aggregate :
  (map (fun e => (Impressions e, ProcessedAt e))
       (campaign_events (db world_out_of_order)) = [(100, 50); (70, 12)]
   /\ map (fun e => (Impressions e, ProcessedAt e))
          (logical_events (db world_out_of_order)) = [(100, 50)]
   /\ InsImpressions <$> aggregate_row bucket1 (db world_out_of_order) = Some 70)
  /\ (map Impressions (logical_events (db world_redelivered)) = [1000]
      /\ InsImpressions <$> aggregate_row bucket1 (db world_redelivered) = Some 2000).
Proof. vm_compute. repeat split; reflexivity. Qed.

(** ** The validator *)

Lemma when_ID v x :
  when (fun ev => (ID ev =? uuid_Nil)%N) (set_ID v) x =
  set_ID (if (ID x =? uuid_Nil)%N then v else ID x) x.
Proof. destruct x. unfold when. simpl. destruct (_ =? _)%N; reflexivity. Qed.

Lemma when_Impressions x :
  when (fun ev => Impressions ev <? 0) (set_Impressions 0) x =
  set_Impressions (clamp_int (Impressions x)) x.
Proof. destruct x. unfold when, clamp_int. simpl. destruct (_ <? _); reflexivity. Qed.

Lemma when_Clicks x :
  when (fun ev => Clicks ev <? 0) (set_Clicks 0) x =
  set_Clicks (clamp_int (Clicks x)) x.
Proof. destruct x. unfold when, clamp_int. simpl. destruct (_ <? _); reflexivity. Qed.

Lemma when_Conversions x :
  when (fun ev => Conversions ev <? 0) (set_Conversions 0) x =
  set_Conversions (clamp_int (Conversions x)) x.
Proof. destruct x. unfold when, clamp_int. simpl. destruct (_ <? _); reflexivity. Qed.

Lemma when_Spend x :
  when (fun ev => Qltb (Spend ev) 0) (set_Spend 0) x =
  set_Spend (clamp_float (Spend x)) x.
Proof. destruct x. unfold when, clamp_float. simpl. destruct (Qltb _ _); reflexivity. Qed.

Lemma when_Revenue x :
  when (fun ev => Qltb (Revenue ev) 0) (set_Revenue 0) x =
  set_Revenue (clamp_float (Revenue x)) x.
Proof. destruct x. unfold when, clamp_float. simpl. destruct (Qltb _ _); reflexivity. Qed.

Lemma when_EventType d x :
  when (fun ev => String.eqb (EventType ev) "") (set_EventType d) x =
  set_EventType (default_to d (EventType x)) x.
Proof. destruct x. unfold when, default_to. simpl. destruct (String.eqb _ _); reflexivity. Qed.

Lemma when_Region d x :
  when (fun ev => String.eqb (Region ev) "") (set_Region d) x =
  set_Region (default_to d (Region x)) x.
Proof. destruct x. unfold when, default_to. simpl. destruct (String.eqb _ _); reflexivity. Qed.

Lemma when_Currency d x :
  when (fun ev => String.eqb (Currency ev) "") (set_Currency d) x =
  set_Currency (default_to d (Currency x)) x.
Proof. destruct x. unfold when, default_to. simpl. destruct (String.eqb _ _); reflexivity. Qed.

Lemma when_ReceivedAt v x :
  when (fun ev => IsZero (ReceivedAt ev)) (set_ReceivedAt v) x =
  set_ReceivedAt (if IsZero (ReceivedAt x) then v else ReceivedAt x) x.
Proof. destruct x. unfold when. simpl. destruct (IsZero _); reflexivity. Qed.

Lemma validateEvent_spec env e :
  validateEvent env e =
  match required_error e with
  | Some err => (with_fresh_id env e, Some err)
  | None => (normalised env e, None)
  end.
Proof.
  unfold validateEvent. cbv zeta.
  rewrite when_ReceivedAt, when_Currency, when_Region, when_EventType, when_Revenue,
    when_Spend, when_Conversions, when_Clicks, when_Impressions, when_ID.
  destruct e as [id cid pf ty im cl cv sp rv tm rg cu dk ra pa].
  unfold required_error, with_fresh_id, normalised. simpl.
  destruct (cid =? uuid_Nil)%N; [reflexivity|].
  destruct (String.eqb pf ""); [reflexivity|].
  destruct (IsZero tm); [reflexivity|].
  destruct (String.eqb dk ""); reflexivity.
Qed.

(** ** The event processor *)

Lemma storeEvent_spec env fl ev d :
  storeEvent env fl ev d =
  if fail_store fl then (d, Some ErrClickHouse) else (stored_db env ev d, None).
Proof.
  destruct (fail_store fl) eqn:E.
  - unfold storeEvent. rewrite E. reflexivity.
  - apply storeEvent_block_aggregate. exact E.
Qed.

Lemma ProcessEvent_spec env fl e w :
  ProcessEvent env fl (Some e) w = outcome env fl e w.
Proof.
  unfold ProcessEvent, outcome, already_processed, marked.
  destruct (IsDeduplicationKeyProcessed _ _ _) as [[|] checkErr]; simpl; [reflexivity|].
  rewrite validateEvent_spec.
  destruct (required_error e) as [err|]; [reflexivity|].
  fold (stored_form env e). rewrite storeEvent_spec.
  destruct (fail_store fl); [reflexivity|].
  destruct (MarkDeduplicationKeyProcessed _ _ _) as [r' markErr]. reflexivity.
Qed.

Lemma required_error_cases e :
  (required_error e = Some ErrMissingCampaignID /\ missing_campaign e)
  \/ (required_error e = Some ErrMissingPlatform /\ ~ missing_campaign e /\ missing_platform e)
  \/ (required_error e = Some ErrMissingEventTime
      /\ ~ missing_campaign e /\ ~ missing_platform e /\ missing_event_time e)
  \/ (required_error e = Some ErrMissingDeduplicationKey
      /\ ~ missing_campaign e /\ ~ missing_platform e /\ ~ missing_event_time e
      /\ missing_dedup_key e)
  \/ (required_error e = None
      /\ ~ missing_campaign e /\ ~ missing_platform e /\ ~ missing_event_time e
      /\ ~ missing_dedup_key e).
Proof.
  unfold required_error, missing_campaign, missing_platform, missing_event_time,
    missing_dedup_key, IsZero.
  destruct (N.eqb_spec (CampaignID e) uuid_Nil) as [Hc|Hc]; [left; split; [reflexivity|exact Hc]|].
  destruct (String.eqb_spec (EvPlatform e) "") as [Hp|Hp];
    [right; left; repeat split; assumption|].
  destruct (Z.eqb_spec (EventTime e) 0) as [Ht|Ht];
    [right; right; left; repeat split; assumption|].
  destruct (String.eqb_spec (DeduplicationKey e) "") as [Hd|Hd];
    [right; right; right; left; repeat split; assumption|].
  right; right; right; right. repeat split; assumption.
Qed.

(** ** C6: events without a required field *)

Lemma filter_In {A} (P : A -> Prop) `{forall x, Decision (P x)} (l : list A) x :
  In x (filter P l) -> P x /\ In x l.
Proof.
  intros Hin. apply list_elem_of_In in Hin. apply list_elem_of_filter in Hin as [HP Hx].
  split; [exact HP | apply list_elem_of_In; exact Hx].
Qed.

Lemma distinct_In {K} `{EqDecision K} (l : list K) k : In k (distinct l) -> In k l.
Proof.
  induction l as [|x l IH]; simpl; [tauto|].
  intros [->|Hin]; [left; reflexivity|].
  apply filter_In in Hin as [_ Hin]. right. apply IH. exact Hin.
Qed.

Lemma group_by_key rows k g :
  In (k, g) (group_by rows) -> exists e, In e rows /\ bucket_of e = k.
Proof.
  unfold group_by. intros Hin. apply in_map_iff in Hin as (k' & Heq & Hk).
  injection Heq as <- _. apply distinct_In in Hk.
  apply in_map_iff in Hk as (e & He & Hine). exists e. split; assumption.
Qed.

Lemma aggregate_of_campaign now k g :
  InsCampaignID (aggregate_of now k g) = fst (fst (fst k)).
Proof. destruct k as [[[c d] p] r]. reflexivity. Qed.

Lemma GetCampaignInsights_db fl params w :
  db (snd (fst (GetCampaignInsights fl params w))) = db w.
Proof.
  unfold GetCampaignInsights.
  destruct (GetObject _ _ _) as [[|i rest]|]; simpl; try reflexivity;
    (destruct (fail_query fl); [reflexivity|]);
    (destruct (run_insights_query params (db w)); [reflexivity|]);
    destruct (Set_ _ _ _ _); reflexivity.
Qed.

Lemma step_spec env fl msg w :
  step env fl msg w =
  if fail_read fl then (w, [ERead false; EBackoff])
  else match msg with
       | None => (w, [ERead true])
       | Some e =>
           match outcome env fl e w with
           | (Some _, w', tr) => (w', ERead true :: tr)
           | (None, w', tr) => (w', ERead true :: tr ++ [ECommit (negb (fail_commit fl))])
           end
       end.
Proof.
  unfold step, processMessage. destruct (fail_read fl); [reflexivity|].
  destruct msg as [e|]; [rewrite ProcessEvent_spec|]; reflexivity.
Qed.

Lemma outcome_no_missing_campaign env fl e w :
  no_missing_campaign (db w) -> no_missing_campaign (db (snd (fst (outcome env fl e w)))).
Proof.
  intros [Hev Hins]. unfold outcome.
  destruct (already_processed fl e w); [split; assumption|].
  destruct (required_error_cases e) as [[-> _]|[[-> _]|[[-> _]|[[-> _]|[-> [Hc _]]]]]];
    try (split; assumption).
  destruct (fail_store fl); [split; assumption|].
  simpl. split; apply Forall_app; split; try assumption; repeat constructor.
  - exact Hc.
  - rewrite aggregate_of_campaign. exact Hc.
Qed.

Lemma apply_op_no_missing_campaign op w :
  no_missing_campaign (db w) -> no_missing_campaign (db (apply_op op w)).
Proof.
  intros Hinv. destruct op as [env fl msg|env fl c s e|fl params]; simpl.
  - rewrite step_spec. destruct (fail_read fl); [exact Hinv|].
    destruct msg as [ev|]; [|exact Hinv].
    pose proof (outcome_no_missing_campaign env fl ev w Hinv) as Hout.
    destruct (outcome env fl ev w) as [[[err|] w'] tr]; exact Hout.
  - rewrite TriggerReaggregation_db. destruct Hinv as [Hev Hins].
    split; simpl; [exact Hev|].
    apply Forall_app. split; [exact Hins|].
    apply Forall_forall. intros r Hr.
    apply list_elem_of_In in Hr.
    unfold rows_of_call in Hr. simpl in Hr. destruct (fail_query fl); [destruct Hr|].
    apply in_map_iff in Hr as ([k g] & <- & Hkg). simpl.
    rewrite aggregate_of_campaign.
    apply group_by_key in Hkg as (ev & Hin & <-).
    apply filter_In in Hin as [_ Hin]. simpl.
    rewrite Forall_forall in Hev. apply Hev. apply list_elem_of_In. exact Hin.
  - rewrite GetCampaignInsights_db. exact Hinv.
Qed.

Lemma run_ops_no_missing_campaign ops : forall w,
  no_missing_campaign (db w) -> no_missing_campaign (db (run_ops ops w)).
Proof.
  unfold run_ops. induction ops as [|op ops IH]; intros w Hinv; simpl; [exact Hinv|].
  apply IH. apply apply_op_no_missing_campaign. exact Hinv.
Qed.

(** C6. [validateEvent] fails exactly when the campaign, the platform,
    the event time or the deduplication key is absent; its error is then
    one of the four errors and names an absent field, the first one absent
    in the order of that list. An event without a campaign that reaches
    [ProcessEvent] leaves both tables as they were and is never handed to
    [storeEvent]; and in every state the system reaches, no stored event
    and no Aggregate Row is without a campaign. *)
Theorem missing_required_fields_rejected (env : Env) (fl : Faults)
  (e : CampaignEvent) (w : World) :
  (snd (validateEvent env e) <> None <->
     missing_campaign e \/ missing_platform e \/ missing_event_time e \/ missing_dedup_key e)
  /\ (forall err, snd (validateEvent env e) = Some err -> is_required_error err)
  /\ (snd (validateEvent env e) = Some ErrMissingCampaignID <-> missing_campaign e)
  /\ (snd (validateEvent env e) = Some ErrMissingPlatform <->
        ~ missing_campaign e /\ missing_platform e)
  /\ (snd (validateEvent env e) = Some ErrMissingEventTime <->
        ~ missing_campaign e /\ ~ missing_platform e /\ missing_event_time e)
  /\ (snd (validateEvent env e) = Some ErrMissingDeduplicationKey <->
        ~ missing_campaign e /\ ~ missing_platform e /\ ~ missing_event_time e
        /\ missing_dedup_key e)
  /\ (missing_campaign e ->
        db (snd (fst (ProcessEvent env fl (Some e) w))) = db w
        /\ forall ev ok, ~ In (EStore ev ok) (snd (ProcessEvent env fl (Some e) w)))
  /\ (forall ops, no_missing_campaign (db (run_ops ops initial_world))).
Proof.
  assert (snd (validateEvent env e) = required_error e) as ->.
  { rewrite validateEvent_spec. destruct (required_error e); reflexivity. }
  unfold is_required_error.
  repeat match goal with |- _ /\ _ => split end.
  - destruct (required_error_cases e) as [[-> ?]|[[-> ?]|[[-> ?]|[[-> ?]|[-> ?]]]]];
      split; intros; try discriminate; try tauto; try congruence.
  - intros err Herr.
    destruct (required_error_cases e) as [[He ?]|[[He ?]|[[He ?]|[[He ?]|[He ?]]]]];
      rewrite He in Herr; try discriminate; injection Herr as <-; tauto.
  - destruct (required_error_cases e) as [[-> ?]|[[-> ?]|[[-> ?]|[[-> ?]|[-> ?]]]]];
      split; intros; try discriminate; try tauto; reflexivity.
  - destruct (required_error_cases e) as [[-> ?]|[[-> ?]|[[-> ?]|[[-> ?]|[-> ?]]]]];
      split; intros; try discriminate; try tauto; reflexivity.
  - destruct (required_error_cases e) as [[-> ?]|[[-> ?]|[[-> ?]|[[-> ?]|[-> ?]]]]];
      split; intros; try discriminate; try tauto; reflexivity.
  - destruct (required_error_cases e) as [[-> ?]|[[-> ?]|[[-> ?]|[[-> ?]|[-> ?]]]]];
      split; intros; try discriminate; try tauto; reflexivity.
  - intros Hmissing. rewrite ProcessEvent_spec. unfold outcome.
    destruct (already_processed fl e w).
    + split; [reflexivity|]. intros ev ok [Hin|[]]. discriminate.
    + destruct (required_error_cases e) as [[-> ?]|[[-> ?]|[[-> ?]|[[-> ?]|[-> ?]]]]];
        try tauto;
        (split; [reflexivity|]; intros ev ok [Hin|[Hin|[]]]; discriminate).
  - intros ops. apply run_ops_no_missing_campaign. split; constructor.
Qed.

Lemma missing_required_fields_rejected_witness :
  missing_campaign ev_no_campaign
  /\ snd (validateEvent (env_at 10) ev_no_campaign) = Some ErrMissingCampaignID
  /\ db (snd (fst (ProcessEvent (env_at 10) no_faults (Some ev_no_campaign) world_ab)))
     = db world_ab.
Proof.
  destruct (missing_required_fields_rejected (env_at 10) no_faults ev_no_campaign world_ab)
    as (_ & _ & Hiff & _ & _ & _ & Hdrop & _).
  assert (missing_campaign ev_no_campaign) as Hm by reflexivity.
  split; [exact Hm|]. split.
  - apply Hiff. exact Hm.
  - apply Hdrop. exact Hm.
Defined.

(** ** C7: the order of the steps *)

(** C7 as stated fails: on a well-formed, not yet processed message the
    worker checks the deduplication key before it validates the event, so
    validation is not the first step; and an event that would fail
    validation, whose key is marked, is skipped and committed without
    being validated. *)
Lemma dedup_check_precedes_validation :
  snd (step (env_at 10) no_faults (Some ev_a) initial_world)
    = [ERead true; EDedupCheck (DeduplicationKey ev_a); EValidate true;
       EStore (stored_form (env_at 10) ev_a) true; EMark (DeduplicationKey ev_a); ECommit true]
  /\ ~ validated_before_dedup_check
         (snd (step (env_at 10) no_faults (Some ev_a) initial_world))
  /\ snd (step (env_at 20) no_faults
            (Some (mkEvent 7%N uuid_Nil "" "" 0 0 0 0 0 0 "" "" (DeduplicationKey ev_a) 0 0))
            world_ab)
     = [ERead true; EDedupCheck (DeduplicationKey ev_a); ECommit true].
Proof.
  split; [vm_compute; reflexivity|]. split; [|vm_compute; reflexivity].
  intros Hclaim.
  destruct (Hclaim [ERead true] (DeduplicationKey ev_a)
              [EValidate true; EStore (stored_form (env_at 10) ev_a) true;
               EMark (DeduplicationKey ev_a); ECommit true]) as [ok Hin].
  - vm_compute. reflexivity.
  - destruct Hin as [Hin|[]]. discriminate.
Qed.

Lemma step_shapes env fl msg w :
  let tr := snd (step env fl msg w) in
  tr = [ERead false; EBackoff]
  \/ tr = [ERead true]
  \/ (exists k ok, tr = [ERead true; EDedupCheck k; ECommit ok])
  \/ (exists k, tr = [ERead true; EDedupCheck k; EValidate false])
  \/ (exists k ev, tr = [ERead true; EDedupCheck k; EValidate true; EStore ev false])
  \/ (exists k ev ok, DeduplicationKey ev = k
        /\ tr = [ERead true; EDedupCheck k; EValidate true; EStore ev true; EMark k;
                 ECommit ok]).
Proof.
  simpl. rewrite step_spec.
  destruct (fail_read fl); [left; reflexivity|].
  destruct msg as [e|]; [|right; left; reflexivity].
  unfold outcome. destruct (already_processed fl e w).
  { right; right; left. eexists. eexists. reflexivity. }
  destruct (required_error e) as [err|].
  { right; right; right; left. eexists. reflexivity. }
  destruct (fail_store fl).
  { right; right; right; right; left. eexists. eexists. reflexivity. }
  right; right; right; right; right.
  exists (DeduplicationKey e), (stored_form env e), (negb (fail_commit fl)).
  split; reflexivity.
Qed.

(** C7, amended. In every turn of the worker the calls are made in the
    order: deduplication check, validation, append to the event log, mark
    of the key, commit of the offset; a turn makes a prefix of that
    sequence, except that an already processed message is committed right
    after the check. In particular the key of an event is checked before
    the event is validated. *)
Theorem worker_steps_in_order (env : Env) (fl : Faults) (msg : option CampaignEvent)
  (w : World) :
  let tr := snd (step env fl msg w) in
  StronglySorted (fun a b => rank a < rank b) tr
  /\ (tr = [ERead false; EBackoff]
      \/ tr = [ERead true]
      \/ (exists k ok, tr = [ERead true; EDedupCheck k; ECommit ok])
      \/ (exists k, tr = [ERead true; EDedupCheck k; EValidate false])
      \/ (exists k ev, tr = [ERead true; EDedupCheck k; EValidate true; EStore ev false])
      \/ (exists k ev ok, DeduplicationKey ev = k
            /\ tr = [ERead true; EDedupCheck k; EValidate true; EStore ev true; EMark k;
                     ECommit ok])).
Proof.
  pose proof (step_shapes env fl msg w) as Hshape. simpl in *.
  split; [|exact Hshape].
  destruct Hshape
    as [->|[->|[(k & ok & ->)|[[k ->]|[(k & ev & ->)|(k & ev & ok & _ & ->)]]]]];
    repeat constructor; simpl; lia.
Qed.

(** ** C8: marking a key *)

(** C8. In every execution of [ProcessEvent], a mark of a key is
    preceded by the successful [storeEvent] of an event with that key,
    the call then reports success and the event is in the event log; and
    an entry of the deduplication store changes only for the key of the
    event that this call has appended to the event log. *)
Theorem mark_only_after_append (env : Env) (fl : Faults) (msg : option CampaignEvent)
  (w : World) :
  (forall k, In (EMark k) (snd (ProcessEvent env fl msg w)) ->
     exists ev pre post,
       snd (ProcessEvent env fl msg w) = (pre ++ EStore ev true :: post)%list
       /\ In (EMark k) post /\ ~ In (EMark k) pre
       /\ DeduplicationKey ev = k
       /\ fst (fst (ProcessEvent env fl msg w)) = None
       /\ In ev (campaign_events (db (snd (fst (ProcessEvent env fl msg w))))))
  /\ (forall key,
        redis (snd (fst (ProcessEvent env fl msg w))) !! key <> redis w !! key ->
        exists ev,
          key = "dedup:" +:+ DeduplicationKey ev
          /\ In (EStore ev true) (snd (ProcessEvent env fl msg w))
          /\ campaign_events (db (snd (fst (ProcessEvent env fl msg w))))
             = (campaign_events (db w) ++ [ev])%list).
Proof.
  destruct msg as [e|]; [|split; [intros k []|intros key Hne; contradiction]].
  rewrite ProcessEvent_spec. unfold outcome.
  destruct (already_processed fl e w).
  { split; [intros k [Hin|[]]; discriminate | intros key Hne; contradiction]. }
  destruct (required_error e) as [err|].
  { split; [intros k [Hin|[Hin|[]]]; discriminate | intros key Hne; contradiction]. }
  destruct (fail_store fl).
  { split; [intros k [Hin|[Hin|[Hin|[]]]]; discriminate | intros key Hne; contradiction]. }
  split.
  - intros k [Hin|[Hin|[Hin|[Hin|[]]]]]; try discriminate. injection Hin as <-.
    exists (stored_form env e), [EDedupCheck (DeduplicationKey e); EValidate true],
      [EMark (DeduplicationKey e)].
    repeat split.
    + left; reflexivity.
    + intros [Hin|[Hin|[]]]; discriminate.
    + simpl. apply in_or_app. right. left. reflexivity.
  - simpl. intros key Hne. exists (stored_form env e).
    split; [|split; [right; right; left; reflexivity | reflexivity]].
    unfold marked, MarkDeduplicationKeyProcessed in Hne.
    destruct (fail_mark fl); simpl in Hne; [contradiction|].
    destruct (decide (key = "dedup:" +:+ DeduplicationKey e)) as [->|Hk]; [reflexivity|].
    rewrite lookup_insert_ne in Hne by congruence. contradiction.
Qed.

Lemma mark_only_after_append_witness :
  exists ev pre post,
    snd (ProcessEvent (env_at 10) no_faults (Some ev_a) initial_world)
      = (pre ++ EStore ev true :: post)%list
    /\ In (EMark (DeduplicationKey ev_a)) post
    /\ In ev (campaign_events
                (db (snd (fst (ProcessEvent (env_at 10) no_faults (Some ev_a)
                                 initial_world))))).
Proof.
  destruct (mark_only_after_append (env_at 10) no_faults (Some ev_a) initial_world)
    as [Htrace _].
  destruct (Htrace (DeduplicationKey ev_a)) as (ev & pre & post & H1 & H2 & _ & _ & _ & H3).
  - vm_compute. right; right; right; left. reflexivity.
  - exists ev, pre, post. repeat split; assumption.
Defined.

(** ** C9: the cache key *)

Lemma buildInsightsQuery_shape p :
  buildInsightsQuery p = (insights_base_query +:+ where_suffix (query_flags p), query_args p).
Proof.
  destruct p as [c s e pl r g].
  unfold buildInsightsQuery, query_flags, query_args, where_suffix.
  cbn [ParCampaignID StartDate EndDate ParPlatform ParRegion Granularity].
  destruct (negb (c =? uuid_Nil)%N), (negb (IsZero s)), (negb (IsZero e)), pl as [pl|],
    r as [r|]; try destruct (negb (String.eqb r "")); reflexivity.
Qed.

Lemma where_suffix_inj f1 f2 : where_suffix f1 = where_suffix f2 -> f1 = f2.
Proof.
  destruct f1 as [[[[a1 a2] a3] a4] a5], f2 as [[[[b1 b2] b3] b4] b5].
  destruct a1, a2, a3, a4, a5, b1, b2, b3, b4, b5; intros H;
    first [reflexivity | vm_compute in H; discriminate H].
Qed.

Lemma same_query_shape p1 p2 :
  buildInsightsQuery p1 = buildInsightsQuery p2 ->
  query_flags p1 = query_flags p2 /\ query_args p1 = query_args p2.
Proof.
  rewrite !buildInsightsQuery_shape. intros H. injection H as Hq Ha.
  split; [|exact Ha]. apply where_suffix_inj. apply (inj (String.append _)) in Hq. exact Hq.
Qed.

Example cache_key_sample :
  getCacheKey params1 =
  "insights:01234567-89ab-cdef-0123-456789abcdef:start:2024-01-01:end:2024-01-01:granularity:daily:".
Proof. vm_compute. reflexivity. Qed.

Lemma optional_arg_inj {A} (b : bool) (x y : A) (l1 l2 : list A) :
  ((if b then [x] else []) ++ l1 = (if b then [y] else []) ++ l2)%list ->
  (b = true -> x = y) /\ l1 = l2.
Proof.
  destruct b; simpl; intros H.
  - injection H as Hx Hl. split; [intros _; exact Hx | exact Hl].
  - split; [discriminate | exact H].
Qed.

Lemma ArgString_inj a b : ArgString a = ArgString b -> a = b.
Proof. intros H. injection H as ->. reflexivity. Qed.

Lemma ArgTime_inj a b : ArgTime a = ArgTime b -> a = b.
Proof. intros H. injection H as ->. reflexivity. Qed.

(** The key written as its parts, in order. *)
Lemma getCacheKey_at_parts zs ze p :
  getCacheKey_at zs ze p =
  "insights:" +:+ uuid_String (ParCampaignID p) +:+ ":" +:+
  (if negb (IsZero (StartDate p))
   then "start:" +:+ format_date_at zs (StartDate p) +:+ ":" else "") +:+
  (if negb (IsZero (EndDate p))
   then "end:" +:+ format_date_at ze (EndDate p) +:+ ":" else "") +:+
  (match ParPlatform p with Some pl => "platform:" +:+ pl +:+ ":" | None => "" end) +:+
  (match ParRegion p with Some r => "region:" +:+ r +:+ ":" | None => "" end) +:+
  (if negb (String.eqb (Granularity p) "")
   then "granularity:" +:+ Granularity p +:+ ":" else "").
Proof.
  unfold getCacheKey_at.
  generalize (uuid_String (ParCampaignID p)) (format_date_at zs (StartDate p))
    (format_date_at ze (EndDate p)).
  intros u fs fe.
  destruct (negb (IsZero (StartDate p))), (negb (IsZero (EndDate p))),
    (ParPlatform p), (ParRegion p), (negb (String.eqb (Granularity p) ""));
    cbv zeta; rewrite ?string_app_assoc; reflexivity.
Qed.

(** [getCacheKey] is [getCacheKey_at] for two dates in UTC. *)
Lemma getCacheKey_at_utc p : getCacheKey_at 0 0 p = getCacheKey p.
Proof.
  unfold getCacheKey_at, getCacheKey, format_date_at. rewrite !Z.add_0_r. reflexivity.
Qed.

(** What the statement and arguments of [buildInsightsQuery] tell about
    the parameters: everything but the granularity, and the region up to
    a nil or an empty one. *)
Lemma same_query_fields p1 p2 :
  buildInsightsQuery p1 = buildInsightsQuery p2 ->
  uuid_String (ParCampaignID p1) = uuid_String (ParCampaignID p2)
  /\ StartDate p1 = StartDate p2
  /\ EndDate p1 = EndDate p2
  /\ ParPlatform p1 = ParPlatform p2
  /\ (ParRegion p1 = ParRegion p2
      \/ ((ParRegion p1 = None \/ ParRegion p1 = Some "")
          /\ (ParRegion p2 = None \/ ParRegion p2 = Some ""))).
Proof.
  intros Hq. apply same_query_shape in Hq as [Hf Ha].
  destruct p1 as [c1 s1 e1 pl1 r1 g1], p2 as [c2 s2 e2 pl2 r2 g2].
  unfold query_flags, query_args in *.
  cbn [ParCampaignID StartDate EndDate ParPlatform ParRegion Granularity] in *.
  injection Hf as H1 H2 H3 H4 H5.
  rewrite <- H1, <- H2, <- H3 in Ha.
  apply optional_arg_inj in Ha as [Hc Ha].
  apply optional_arg_inj in Ha as [Hs Ha].
  apply optional_arg_inj in Ha as [He Ha].
  split.
  { destruct (N.eqb_spec c1 uuid_Nil) as [->|N1].
    - destruct (N.eqb_spec c2 uuid_Nil) as [->|N2]; [reflexivity | discriminate H1].
    - apply ArgString_inj. apply Hc. reflexivity. }
  split.
  { unfold IsZero in *. destruct (Z.eqb_spec s1 0) as [->|N1].
    - destruct (Z.eqb_spec s2 0) as [->|N2]; [reflexivity | discriminate H2].
    - apply ArgTime_inj. apply Hs. reflexivity. }
  split.
  { unfold IsZero in *. destruct (Z.eqb_spec e1 0) as [->|N1].
    - destruct (Z.eqb_spec e2 0) as [->|N2]; [reflexivity | discriminate H3].
    - apply ArgTime_inj. apply He. reflexivity. }
  clear Hc Hs He H1 H2 H3.
  destruct pl1 as [pl1|], pl2 as [pl2|]; try discriminate H4; cbn [app] in Ha;
    [injection Ha as -> Ha|].
  all: split; [reflexivity|].
  all: destruct r1 as [r1|], r2 as [r2|];
    try destruct (String.eqb_spec r1 "") as [->|R1];
    try destruct (String.eqb_spec r2 "") as [->|R2];
    try discriminate H5; cbn [negb app] in Ha;
    first [ left; reflexivity
          | left; injection Ha as ->; reflexivity
          | right; split; [first [left; reflexivity | right; reflexivity]
                          | first [left; reflexivity | right; reflexivity]] ].
Qed.

(** The part of a key that holds a date is read back from the key. *)
Lemma date_part_iff (b : bool) (l f1 f2 x y : string) :
  has_colon f1 = false -> has_colon f2 = false ->
  ((if b then l +:+ f1 +:+ ":" else "") +:+ x = (if b then l +:+ f2 +:+ ":" else "") +:+ y
   <-> (b = true -> f1 = f2) /\ x = y).
Proof.
  intros H1 H2. destruct b.
  - rewrite !string_app_assoc. split.
    + intros H. apply string_app_inv_head in H.
      destruct (split_at_colon f1 f2 x y H1 H2 H) as [-> ->]. split; [intros _|]; reflexivity.
    + intros [Hf ->]. rewrite (Hf eq_refl). reflexivity.
  - change ("" +:+ x) with x. change ("" +:+ y) with y. split.
    + intros ->. split; [discriminate | reflexivity].
    + intros [_ ->]. reflexivity.
Qed.

Lemma granularity_part_inj g1 g2 :
  (if negb (String.eqb g1 "") then "granularity:" +:+ g1 +:+ ":" else "")
  = (if negb (String.eqb g2 "") then "granularity:" +:+ g2 +:+ ":" else "") ->
  g1 = g2.
Proof.
  destruct (String.eqb_spec g1 "") as [->|N1], (String.eqb_spec g2 "") as [->|N2];
    cbn [negb]; intros H.
  - reflexivity.
  - change ("" = String "g" ("ranularity:" +:+ g2 +:+ ":")) in H. discriminate H.
  - change (String "g" ("ranularity:" +:+ g1 +:+ ":") = "") in H. discriminate H.
  - apply string_app_inv_head in H. apply string_app_inv_tail in H. exact H.
Qed.

(** The end of a key, for two regions that give one statement. *)
Lemma region_part_iff r1 r2 g1 g2 :
  (r1 = r2 \/ ((r1 = None \/ r1 = Some "") /\ (r2 = None \/ r2 = Some ""))) ->
  ((match r1 with Some r => "region:" +:+ r +:+ ":" | None => "" end) +:+
   (if negb (String.eqb g1 "") then "granularity:" +:+ g1 +:+ ":" else "")
   = (match r2 with Some r => "region:" +:+ r +:+ ":" | None => "" end) +:+
     (if negb (String.eqb g2 "") then "granularity:" +:+ g2 +:+ ":" else "")
   <-> g1 = g2 /\ (r1 = None <-> r2 = None)).
Proof.
  intros Hr.
  assert (r1 = r2 \/ (r1 = None /\ r2 = Some "") \/ (r1 = Some "" /\ r2 = None)) as Hcases.
  { destruct Hr as [->|[[->| ->] [->| ->]]]; auto. }
  clear Hr. destruct Hcases as [->|[[-> ->]|[-> ->]]].
  - split.
    + intros H. apply string_app_inv_head in H. apply granularity_part_inj in H.
      split; [exact H | reflexivity].
    + intros [-> _]. reflexivity.
  - split.
    + intros H. exfalso. destruct (negb (String.eqb g1 "")).
      * change (String "g" ("ranularity:" +:+ g1 +:+ ":")
                = String "r" ("egion::" +:+
                     (if negb (String.eqb g2 "") then "granularity:" +:+ g2 +:+ ":" else "")))
          in H.
        discriminate H.
      * change ("" = String "r" ("egion::" +:+
                     (if negb (String.eqb g2 "") then "granularity:" +:+ g2 +:+ ":" else "")))
          in H.
        discriminate H.
    + intros [_ [H _]]. discriminate (H eq_refl).
  - split.
    + intros H. exfalso. destruct (negb (String.eqb g2 "")).
      * change (String "r" ("egion::" +:+
                     (if negb (String.eqb g1 "") then "granularity:" +:+ g1 +:+ ":" else ""))
                = String "g" ("ranularity:" +:+ g2 +:+ ":"))
          in H.
        discriminate H.
      * change (String "r" ("egion::" +:+
                     (if negb (String.eqb g1 "") then "granularity:" +:+ g1 +:+ ":" else ""))
                = "") in H.
        discriminate H.
    + intros [_ [_ H]]. discriminate (H eq_refl).
Qed.

(** C9 as stated fails: two queries that differ in granularity only,
    and two that differ only in a nil and an empty region, are translated
    by [buildInsightsQuery] to the same statement and arguments and yet
    have different cache keys. So have one and the same parameter value
    read in two locations: at 23:30 UTC the day printed in a location one
    hour east is the next one. *)
Lemma same_query_different_cache_key :
  (buildInsightsQuery params1 = buildInsightsQuery params_weekly
   /\ getCacheKey params1 <> getCacheKey params_weekly)
  /\ (buildInsightsQuery params1 = buildInsightsQuery params_empty_region
      /\ getCacheKey params1 <> getCacheKey params_empty_region)
  /\ getCacheKey_at 0 0 params_evening <> getCacheKey_at 3600 3600 params_evening.
Proof.
  split; [|split];
    try (split; [vm_compute; reflexivity |]);
    intros H; apply String.eqb_eq in H; vm_compute in H; discriminate H.
Qed.

(** C9, amended. Of two parameter values that [buildInsightsQuery]
    translates to the same statement and arguments, the cache keys are
    equal exactly when the two name the same granularity, both have or
    both lack a region, and each date that is set prints the same
    calendar day in the locations of the two values. The locations are
    arbitrary: [zs1], [ze1] are the offsets of the two dates of [p1], and
    [zs2], [ze2] those of [p2]. *)
Theorem same_query_same_cache_key (zs1 ze1 zs2 ze2 : Z) (p1 p2 : CampaignInsightsParams) :
  buildInsightsQuery p1 = buildInsightsQuery p2 ->
  (getCacheKey_at zs1 ze1 p1 = getCacheKey_at zs2 ze2 p2
   <-> Granularity p1 = Granularity p2
       /\ (ParRegion p1 = None <-> ParRegion p2 = None)
       /\ (StartDate p1 <> 0 ->
           format_date_at zs1 (StartDate p1) = format_date_at zs2 (StartDate p2))
       /\ (EndDate p1 <> 0 ->
           format_date_at ze1 (EndDate p1) = format_date_at ze2 (EndDate p2))).
Proof.
  intros Hq. apply same_query_fields in Hq as (Hu & Hs & He & Hp & Hr).
  rewrite !getCacheKey_at_parts. rewrite <- Hu, <- Hs, <- He, <- Hp.
  assert (forall t, negb (IsZero t) = true <-> t <> 0) as Hzero.
  { intros t. unfold IsZero. destruct (Z.eqb_spec t 0); simpl; split; congruence. }
  pose proof (date_part_iff (negb (IsZero (StartDate p1))) "start:"
                (format_date_at zs1 (StartDate p1)) (format_date_at zs2 (StartDate p1)))
    as Hstart.
  pose proof (date_part_iff (negb (IsZero (EndDate p1))) "end:"
                (format_date_at ze1 (EndDate p1)) (format_date_at ze2 (EndDate p1)))
    as Hend.
  pose proof (region_part_iff (ParRegion p1) (ParRegion p2) (Granularity p1) (Granularity p2) Hr)
    as Hregion.
  split.
  - intros H. do 3 apply string_app_inv_head in H.
    apply Hstart in H as [Hs' H]; try apply format_date_no_colon.
    apply Hend in H as [He' H]; try apply format_date_no_colon.
    apply string_app_inv_head in H. apply Hregion in H as [Hg Hpres].
    split; [exact Hg|]. split; [exact Hpres|].
    split; intros Hne; [apply Hs' | apply He']; apply Hzero; exact Hne.
  - intros (Hg & Hpres & Hs' & He').
    do 3 f_equal.
    apply Hstart; try apply format_date_no_colon.
    split; [intros Hb; apply Hs'; apply Hzero; exact Hb|].
    apply Hend; try apply format_date_no_colon.
    split; [intros Hb; apply He'; apply Hzero; exact Hb|].
    f_equal. apply Hregion. split; assumption.
Qed.

Lemma same_query_same_cache_key_witness :
  getCacheKey_at 0 0 params1 <> getCacheKey_at 0 0 params_weekly
  /\ getCacheKey_at 0 0 params_evening = getCacheKey_at 1200 1200 params_evening.
Proof.
  split.
  - intros H.
    apply (same_query_same_cache_key 0 0 0 0 params1 params_weekly) in H;
      [|vm_compute; reflexivity].
    destruct H as [Hg _]. discriminate Hg.
  - apply (same_query_same_cache_key 0 0 1200 1200 params_evening params_evening);
      [reflexivity|].
    split; [reflexivity|]. split; [split; intros; reflexivity|].
    split; intros _; vm_compute; reflexivity.
Defined.

(** ** C10: empty results and the cache *)

Lemma GetObject_Some fail key st rows :
  GetObject fail key st = Some rows -> st !! key = Some (RJson rows).
Proof.
  unfold GetObject. destruct fail; [discriminate|].
  destruct (st !! key) as [[rows'|s]|]; try discriminate.
  intros H. injection H as ->. reflexivity.
Qed.

Lemma GetCampaignInsights_miss fl params w :
  (forall i rest, GetObject (fail_cache_get fl) (getCacheKey params) (redis w)
                  <> Some (i :: rest)) ->
  GetCampaignInsights fl params w =
  if fail_query fl
  then (inl ErrClickHouse, w, [ECacheGet (getCacheKey params); EDbQuery])
  else match run_insights_query params (db w) with
       | [] => (inr [], w, [ECacheGet (getCacheKey params); EDbQuery])
       | i :: rest =>
           (inr (i :: rest),
            mkWorld (db w)
              (fst (Set_ (fail_cache_set fl) (getCacheKey params) (i :: rest) (redis w))),
            [ECacheGet (getCacheKey params); EDbQuery;
             ECacheSet (getCacheKey params) (i :: rest)])
       end.
Proof.
  intros Hmiss. unfold GetCampaignInsights.
  destruct (GetObject _ _ _) as [[|i rest]|] eqn:E;
    try (exfalso; exact (Hmiss i rest eq_refl));
    (destruct (fail_query fl); [reflexivity|]);
    (destruct (run_insights_query params (db w)); [reflexivity|]);
    destruct (Set_ _ _ _ _); reflexivity.
Qed.

Lemma GetCampaignInsights_hit fl params w i rest :
  GetObject (fail_cache_get fl) (getCacheKey params) (redis w) = Some (i :: rest) ->
  GetCampaignInsights fl params w = (inr (i :: rest), w, [ECacheGet (getCacheKey params)]).
Proof. intros E. unfold GetCampaignInsights. rewrite E. reflexivity. Qed.

Lemma GetCampaignInsights_cases fl params w :
  (exists i rest,
     GetObject (fail_cache_get fl) (getCacheKey params) (redis w) = Some (i :: rest))
  \/ (forall i rest, GetObject (fail_cache_get fl) (getCacheKey params) (redis w)
                     <> Some (i :: rest)).
Proof.
  destruct (GetObject _ _ _) as [[|i rest]|].
  - right. intros; discriminate.
  - left. exists i, rest. reflexivity.
  - right. intros; discriminate.
Qed.

Lemma no_rows_cached_miss fl key st :
  no_rows_cached key st -> forall i rest, GetObject fl key st <> Some (i :: rest).
Proof.
  intros Hno i rest E. apply GetObject_Some in E. exact (Hno i rest E).
Qed.

Lemma empty_answer_falls_through fl params w :
  no_rows_cached (getCacheKey params) (redis w) ->
  run_insights_query params (db w) = [] ->
  snd (GetCampaignInsights fl params w) = [ECacheGet (getCacheKey params); EDbQuery]
  /\ snd (fst (GetCampaignInsights fl params w)) = w
  /\ (fail_query fl = false -> fst (fst (GetCampaignInsights fl params w)) = inr []).
Proof.
  intros Hno Hempty.
  rewrite GetCampaignInsights_miss by (apply no_rows_cached_miss; exact Hno).
  rewrite Hempty. destruct (fail_query fl); repeat split; intros; try reflexivity; discriminate.
Qed.

Lemma query_times_fall_through calls params : forall w,
  no_rows_cached (getCacheKey params) (redis w) ->
  run_insights_query params (db w) = [] ->
  Forall (fun tr => In EDbQuery tr) (query_times calls params w).
Proof.
  induction calls as [|fl calls IH]; intros w Hno Hempty; simpl; [constructor|].
  destruct (empty_answer_falls_through fl params w Hno Hempty) as (Htr & Hw & _).
  destruct (GetCampaignInsights fl params w) as [[res w'] tr]. simpl in Htr, Hw. subst.
  constructor; [right; left; reflexivity|]. apply IH; assumption.
Qed.

(** C10 as stated fails. On the two stored events, the query [params1]
    is answered from the database and its two rows are cached. The query
    [params_later], whose first date is one second later on the same day,
    has the same cache key and matches no row of the table; it is
    answered from the cache with the rows of [params1], and the database
    is not asked. *)
Lemma empty_answer_served_from_cache :
  snd (GetCampaignInsights no_faults params1 world_ab)
  = [ECacheGet (getCacheKey params1); EDbQuery;
     ECacheSet (getCacheKey params1) (run_insights_query params1 (db world_ab))]
  /\ getCacheKey params_later = getCacheKey params1
  /\ run_insights_query params_later (db world_ab_cached) = []
  /\ snd (GetCampaignInsights no_faults params_later world_ab_cached)
     = [ECacheGet (getCacheKey params_later)]
  /\ ~ In EDbQuery (snd (GetCampaignInsights no_faults params_later world_ab_cached))
  /\ fst (fst (GetCampaignInsights no_faults params_later world_ab_cached))
     = inr (run_insights_query params1 (db world_ab))
  /\ map InsImpressions (run_insights_query params1 (db world_ab)) = [1000; 500].
Proof.
  split; [vm_compute; reflexivity|].
  split; [vm_compute; reflexivity|].
  split; [vm_compute; reflexivity|].
  split; [vm_compute; reflexivity|].
  split; [|split; vm_compute; reflexivity].
  intros Hin. vm_compute in Hin. destruct Hin as [Hin|[]]. discriminate Hin.
Qed.

(** C10, amended. [GetCampaignInsights] writes to the cache only the
    rows of its own query and only when there is at least one: whatever
    entry of the cache a call changes then holds a non-empty list. A
    cached empty list is a miss: the call goes on to the database. So,
    from a cache that holds no non-empty list under the key of a query
    whose answer is empty, every call of that query reaches the database,
    returns the empty answer and leaves the state as it was. *)
Theorem empty_results_never_cached (fl : Faults) (params : CampaignInsightsParams)
  (w : World) :
  (forall k rows, In (ECacheSet k rows) (snd (GetCampaignInsights fl params w)) ->
     k = getCacheKey params /\ rows <> [] /\ rows = run_insights_query params (db w))
  /\ (forall k,
        redis (snd (fst (GetCampaignInsights fl params w))) !! k <> redis w !! k ->
        k = getCacheKey params
        /\ exists i rest,
             redis (snd (fst (GetCampaignInsights fl params w))) !! k
             = Some (RJson (i :: rest)))
  /\ (redis w !! getCacheKey params = Some (RJson []) ->
        In EDbQuery (snd (GetCampaignInsights fl params w)))
  /\ (no_rows_cached (getCacheKey params) (redis w) ->
      run_insights_query params (db w) = [] ->
        In EDbQuery (snd (GetCampaignInsights fl params w))
        /\ snd (fst (GetCampaignInsights fl params w)) = w
        /\ (fail_query fl = false -> fst (fst (GetCampaignInsights fl params w)) = inr [])
        /\ forall calls, Forall (fun tr => In EDbQuery tr) (query_times calls params w)).
Proof.
  repeat match goal with |- _ /\ _ => split end.
  - intros k rows Hin.
    destruct (GetCampaignInsights_cases fl params w) as [(i & rest & E)|Hmiss].
    + rewrite (GetCampaignInsights_hit _ _ _ _ _ E) in Hin.
      destruct Hin as [Hin|[]]. discriminate.
    + rewrite (GetCampaignInsights_miss _ _ _ Hmiss) in Hin.
      destruct (fail_query fl); [destruct Hin as [Hin|[Hin|[]]]; discriminate|].
      destruct (run_insights_query params (db w)) as [|i rest];
        [destruct Hin as [Hin|[Hin|[]]]; discriminate|].
      destruct Hin as [Hin|[Hin|[Hin|[]]]]; try discriminate.
      injection Hin as <- <-. repeat split. discriminate.
  - intros k Hne.
    destruct (GetCampaignInsights_cases fl params w) as [(i & rest & E)|Hmiss].
    + rewrite (GetCampaignInsights_hit _ _ _ _ _ E) in Hne. contradiction.
    + rewrite (GetCampaignInsights_miss _ _ _ Hmiss) in Hne |- *.
      destruct (fail_query fl); [contradiction|].
      destruct (run_insights_query params (db w)) as [|i rest]; [contradiction|].
      simpl in *. unfold Set_ in *.
      destruct (fail_cache_set fl); simpl in *; [contradiction|].
      destruct (decide (k = getCacheKey params)) as [->|Hk].
      * split; [reflexivity|]. exists i, rest. apply lookup_insert_eq.
      * rewrite lookup_insert_ne in Hne by congruence. contradiction.
  - intros Hcached.
    rewrite GetCampaignInsights_miss.
    + destruct (fail_query fl); [right; left; reflexivity|].
      destruct (run_insights_query params (db w)); right; left; reflexivity.
    + intros i rest E. apply GetObject_Some in E. congruence.
  - intros Hno Hempty.
    destruct (empty_answer_falls_through fl params w Hno Hempty) as (Htr & Hw & Hres).
    split; [rewrite Htr; right; left; reflexivity|].
    split; [exact Hw|]. split; [exact Hres|].
    intros calls. apply query_times_fall_through; assumption.
Qed.

Lemma empty_results_never_cached_witness :
  In EDbQuery (snd (GetCampaignInsights no_faults params1 world_empty_cached))
  /\ snd (fst (GetCampaignInsights no_faults params1 world_empty_cached))
     = world_empty_cached
  /\ fst (fst (GetCampaignInsights no_faults params1 world_empty_cached)) = inr [].
Proof.
  destruct (empty_results_never_cached no_faults params1 world_empty_cached)
    as (_ & _ & Hmiss & Hfall).
  split.
  - apply Hmiss. unfold world_empty_cached. simpl. apply lookup_insert_eq.
  - destruct Hfall as (_ & Hw & Hres & _).
    + intros i rest. unfold world_empty_cached. simpl.
      rewrite lookup_insert_eq. discriminate.
    + reflexivity.
    + split; [exact Hw | apply Hres; reflexivity].
Defined.

(** * Further properties of the code *)

(** ** The validator: clamping, defaults, idempotence *)

Lemma clamp_int_max z : clamp_int z = Z.max 0 z.
Proof.
  unfold clamp_int. destruct (z <? 0) eqn:E.
  - apply Z.ltb_lt in E. lia.
  - apply Z.ltb_ge in E. lia.
Qed.

Lemma clamp_float_nonneg q : (0 <= clamp_float q)%Q.
Proof.
  unfold clamp_float, Qltb. destruct (Qle_bool 0 q) eqn:E; simpl.
  - apply Qle_bool_iff. exact E.
  - apply Qle_refl.
Qed.

Lemma clamp_float_id q : (0 <= q)%Q -> clamp_float q = q.
Proof.
  intros Hq. unfold clamp_float, Qltb.
  apply Qle_bool_iff in Hq. rewrite Hq. reflexivity.
Qed.

Lemma clamp_float_neg q : (q < 0)%Q -> clamp_float q = 0%Q.
Proof.
  intros Hq. unfold clamp_float, Qltb.
  destruct (Qle_bool 0 q) eqn:E; [|reflexivity].
  apply Qle_bool_iff in E. exfalso. exact (Qlt_not_le _ _ Hq E).
Qed.

Lemma default_to_nonempty d s : d <> "" -> default_to d s <> "".
Proof.
  intros Hd. unfold default_to. destruct (String.eqb_spec s ""); assumption.
Qed.

Lemma validateEvent_ok env e e' :
  validateEvent env e = (e', None) -> required_error e = None /\ e' = normalised env e.
Proof.
  rewrite validateEvent_spec. destruct (required_error e); [discriminate|].
  intros H. injection H as <-. split; reflexivity.
Qed.

(** X1. When [validateEvent] accepts an event it returns it with every
    negative metric replaced by 0 and every other metric as it was, with
    an empty event type, region or currency replaced by "stats", "all"
    or "USD" and a non-empty one kept, and with the campaign, platform,
    event time, deduplication key and processing time untouched. *)
Theorem validateEvent_clamps_and_defaults (env : Env) (e e' : CampaignEvent) :
  validateEvent env e = (e', None) ->
  (Impressions e' = Z.max 0 (Impressions e)
   /\ Clicks e' = Z.max 0 (Clicks e)
   /\ Conversions e' = Z.max 0 (Conversions e))
  /\ ((0 <= Spend e')%Q /\ ((0 <= Spend e)%Q -> Spend e' = Spend e)
      /\ ((Spend e < 0)%Q -> Spend e' = 0%Q))
  /\ ((0 <= Revenue e')%Q /\ ((0 <= Revenue e)%Q -> Revenue e' = Revenue e)
      /\ ((Revenue e < 0)%Q -> Revenue e' = 0%Q))
  /\ (EventType e' = if String.eqb (EventType e) "" then "stats" else EventType e)
  /\ (Region e' = if String.eqb (Region e) "" then "all" else Region e)
  /\ (Currency e' = if String.eqb (Currency e) "" then "USD" else Currency e)
  /\ (CampaignID e' = CampaignID e /\ EvPlatform e' = EvPlatform e
      /\ EventTime e' = EventTime e /\ DeduplicationKey e' = DeduplicationKey e
      /\ ProcessedAt e' = ProcessedAt e).
Proof.
  intros H. apply validateEvent_ok in H as [_ ->]. unfold normalised. simpl.
  split; [repeat split; apply clamp_int_max|].
  split; [split; [apply clamp_float_nonneg|split; [apply clamp_float_id|apply clamp_float_neg]]|].
  split; [split; [apply clamp_float_nonneg|split; [apply clamp_float_id|apply clamp_float_neg]]|].
  repeat split.
Qed.

Lemma validateEvent_clamps_and_defaults_witness :
  Clicks (fst (validateEvent (env_at 10) ev_negative)) = 0
  /\ Spend (fst (validateEvent (env_at 10) ev_negative)) = 0%Q
  /\ Region (fst (validateEvent (env_at 10) ev_negative)) = "all".
Proof.
  destruct (validateEvent_clamps_and_defaults (env_at 10) ev_negative
              (fst (validateEvent (env_at 10) ev_negative)))
    as ((_ & Hc & _) & (_ & _ & Hs) & _ & _ & Hr & _).
  - vm_compute. reflexivity.
  - split; [rewrite Hc; reflexivity|].
    split; [apply Hs; reflexivity | rewrite Hr; reflexivity].
Defined.

Lemma normalised_well_formed env e :
  required_error e = None -> well_formed_event (normalised env e).
Proof.
  intros Hreq.
  destruct (required_error_cases e) as [[He ?]|[[He ?]|[[He ?]|[[He ?]|[_ (Hc & Hp & Ht & Hd)]]]]];
    try congruence.
  unfold well_formed_event, clamped, normalised. simpl.
  repeat split; try assumption; try (rewrite clamp_int_max; lia);
    try apply clamp_float_nonneg; apply default_to_nonempty; discriminate.
Qed.

(** X2. Validation is idempotent: an event that [validateEvent] has
    accepted and returned is accepted again and returned unchanged by any
    later validation, provided the identifier drawn and the clock read the
    first time were not the zero values. *)
Theorem validateEvent_idempotent (env env2 : Env) (e e' : CampaignEvent) :
  new_uuid env <> uuid_Nil -> received_now env <> 0 ->
  validateEvent env e = (e', None) ->
  validateEvent env2 e' = (e', None).
Proof.
  intros Hid Hnow H. apply validateEvent_ok in H as [Hreq ->].
  rewrite validateEvent_spec.
  assert (required_error (normalised env e) = None) as ->.
  { unfold required_error, normalised. simpl. exact Hreq. }
  destruct e as [id cid pf ty im cl cv sp rv tm rg cu dk ra pa].
  unfold normalised. simpl. f_equal. f_equal.
  - destruct (N.eqb_spec id uuid_Nil) as [->|Hne].
    + destruct (N.eqb_spec (new_uuid env) uuid_Nil); [contradiction|reflexivity].
    + destruct (N.eqb_spec id uuid_Nil); [contradiction|reflexivity].
  - unfold default_to. destruct (String.eqb_spec ty "") as [->|Hne]; simpl; [reflexivity|].
    destruct (String.eqb_spec ty ""); [contradiction|reflexivity].
  - rewrite !clamp_int_max. lia.
  - rewrite !clamp_int_max. lia.
  - rewrite !clamp_int_max. lia.
  - apply clamp_float_id, clamp_float_nonneg.
  - apply clamp_float_id, clamp_float_nonneg.
  - unfold default_to. destruct (String.eqb_spec rg "") as [->|Hne]; simpl; [reflexivity|].
    destruct (String.eqb_spec rg ""); [contradiction|reflexivity].
  - unfold default_to. destruct (String.eqb_spec cu "") as [->|Hne]; simpl; [reflexivity|].
    destruct (String.eqb_spec cu ""); [contradiction|reflexivity].
  - unfold IsZero. destruct (Z.eqb_spec ra 0) as [->|Hne].
    + destruct (Z.eqb_spec (received_now env) 0); [contradiction|reflexivity].
    + destruct (Z.eqb_spec ra 0); [contradiction|reflexivity].
Qed.

Lemma validateEvent_idempotent_witness :
  validateEvent (env_at 20) (fst (validateEvent (env_at 10) ev_negative))
  = (fst (validateEvent (env_at 10) ev_negative), None).
Proof.
  apply (validateEvent_idempotent (env_at 10) (env_at 20) ev_negative).
  - discriminate.
  - discriminate.
  - vm_compute. reflexivity.
Defined.

(** ** The event processor and the worker loop *)

Lemma already_processed_marked fl e w v :
  fail_dedup_check fl = false ->
  redis w !! ("dedup:" +:+ DeduplicationKey e) = Some v ->
  already_processed fl e w = true.
Proof.
  intros Hok Hv. unfold already_processed, IsDeduplicationKeyProcessed.
  rewrite Hok, Hv. reflexivity.
Qed.

Lemma already_processed_unmarked fl e w :
  redis w !! ("dedup:" +:+ DeduplicationKey e) = None ->
  already_processed fl e w = false.
Proof.
  intros Hv. unfold already_processed, IsDeduplicationKeyProcessed.
  destruct (fail_dedup_check fl); [reflexivity|].
  rewrite Hv. reflexivity.
Qed.

(** An event whose deduplication key is marked in Redis is
    acknowledged without being validated or stored, whatever else it
    holds: [ProcessEvent] reports success, makes the one check and leaves
    the state as it was, also for an event [validateEvent] would reject. *)
Theorem marked_event_is_skipped (env : Env) (fl : Faults) (e : CampaignEvent)
  (w : World) (v : rvalue) :
  fail_dedup_check fl = false ->
  redis w !! ("dedup:" +:+ DeduplicationKey e) = Some v ->
  ProcessEvent env fl (Some e) w = (None, w, [EDedupCheck (DeduplicationKey e)]).
Proof.
  intros Hok Hv. rewrite ProcessEvent_spec. unfold outcome.
  rewrite (already_processed_marked fl e w v Hok Hv). reflexivity.
Qed.

Lemma marked_event_is_skipped_witness :
  ProcessEvent (env_at 30) no_faults
    (Some (mkEvent 7%N uuid_Nil "" "" 0 0 0 0 0 0 "" "" (DeduplicationKey ev_a) 0 0))
    world_ab
  = (None, world_ab, [EDedupCheck (DeduplicationKey ev_a)]).
Proof.
  apply (marked_event_is_skipped (env_at 30) no_faults
           (mkEvent 7%N uuid_Nil "" "" 0 0 0 0 0 0 "" "" (DeduplicationKey ev_a) 0 0)
           world_ab (RString "1")).
  - reflexivity.
  - vm_compute. reflexivity.
Defined.

(** X4. The deduplication check fails open: when Redis cannot be asked,
    an acceptable event is stored although its key is marked, so the event
    log gains a second physical row for it. *)
Theorem failed_check_stores_again (env : Env) (fl : Faults) (e : CampaignEvent)
  (w : World) :
  fail_dedup_check fl = true -> fail_store fl = false ->
  required_error e = None ->
  fst (fst (ProcessEvent env fl (Some e) w)) = None
  /\ campaign_events (db (snd (fst (ProcessEvent env fl (Some e) w))))
     = (campaign_events (db w) ++ [stored_form env e])%list.
Proof.
  intros Hcheck Hstore Hreq. rewrite ProcessEvent_spec. unfold outcome.
  assert (already_processed fl e w = false) as ->
    by (unfold already_processed, IsDeduplicationKeyProcessed; rewrite Hcheck; reflexivity).
  rewrite Hreq, Hstore. split; reflexivity.
Qed.

Lemma failed_check_stores_again_witness :
  length (campaign_events
            (db (snd (fst (ProcessEvent (env_at 30)
                             (mkFaults true false false false false false false false false)
                             (Some ev_a) world_ab))))) = 3%nat.
Proof.
  destruct (failed_check_stores_again (env_at 30)
              (mkFaults true false false false false false false false false)
              ev_a world_ab) as [_ Hev].
  - reflexivity.
  - reflexivity.
  - reflexivity.
  - rewrite Hev. reflexivity.
Defined.

(** X5. A redelivery is absorbed: once [ProcessEvent] has stored an
    event and marked its key, processing the same message again, with the
    check working, reports success and changes nothing, so the two
    deliveries append one row in all. *)
Theorem redelivery_is_absorbed (env env2 : Env) (fl fl2 : Faults) (e : CampaignEvent)
  (w : World) :
  required_error e = None ->
  redis w !! ("dedup:" +:+ DeduplicationKey e) = None ->
  fail_store fl = false -> fail_mark fl = false -> fail_dedup_check fl2 = false ->
  let w1 := snd (fst (ProcessEvent env fl (Some e) w)) in
  campaign_events (db w1) = (campaign_events (db w) ++ [stored_form env e])%list
  /\ ProcessEvent env2 fl2 (Some e) w1 = (None, w1, [EDedupCheck (DeduplicationKey e)]).
Proof.
  intros Hreq Hfresh Hstore Hmark Hcheck w1. unfold w1. clear w1.
  rewrite (ProcessEvent_spec env fl e w). unfold outcome.
  rewrite (already_processed_unmarked fl e w Hfresh), Hreq, Hstore.
  cbn [fst snd db campaign_events stored_db].
  split; [reflexivity|].
  apply (marked_event_is_skipped env2 fl2 e _ (RString "1") Hcheck).
  cbn [redis]. unfold marked, MarkDeduplicationKeyProcessed. rewrite Hmark.
  cbn [fst]. apply lookup_insert_eq.
Qed.

Lemma redelivery_is_absorbed_witness :
  ProcessEvent (env_at 20) no_faults (Some ev_a)
    (snd (fst (ProcessEvent (env_at 10) no_faults (Some ev_a) initial_world)))
  = (None, snd (fst (ProcessEvent (env_at 10) no_faults (Some ev_a) initial_world)),
     [EDedupCheck (DeduplicationKey ev_a)]).
Proof.
  apply (redelivery_is_absorbed (env_at 10) (env_at 20) no_faults no_faults ev_a
           initial_world); reflexivity.
Defined.

Lemma outcome_events env fl e w :
  campaign_events (db (snd (fst (outcome env fl e w)))) = campaign_events (db w)
  \/ (required_error e = None
      /\ campaign_events (db (snd (fst (outcome env fl e w))))
         = (campaign_events (db w) ++ [stored_form env e])%list).
Proof.
  unfold outcome. destruct (already_processed fl e w); [left; reflexivity|].
  destruct (required_error e); [left; reflexivity|].
  destruct (fail_store fl); [left; reflexivity | right; split; reflexivity].
Qed.

Lemma apply_op_events op w :
  campaign_events (db (apply_op op w)) = campaign_events (db w)
  \/ exists env e, required_error e = None
       /\ campaign_events (db (apply_op op w))
          = (campaign_events (db w) ++ [stored_form env e])%list.
Proof.
  destruct op as [env fl msg|env fl c s e|fl params]; simpl.
  - rewrite step_spec. destruct (fail_read fl); [left; reflexivity|].
    destruct msg as [ev|]; [|left; reflexivity].
    destruct (outcome_events env fl ev w) as [H|[Hreq H]];
      destruct (outcome env fl ev w) as [[[err|] w'] tr]; simpl in *;
      first [left; exact H | right; exists env, ev; split; assumption].
  - rewrite TriggerReaggregation_db. left. reflexivity.
  - rewrite GetCampaignInsights_db. left. reflexivity.
Qed.

Lemma stored_form_well_formed env e :
  required_error e = None -> well_formed_event (stored_form env e).
Proof.
  intros Hreq. pose proof (normalised_well_formed env e Hreq) as H.
  unfold stored_form. destruct (normalised env e). exact H.
Qed.

(** X6. Whatever messages the worker handles and whatever
    re-aggregations and queries run, every event in the event log has its
    campaign, platform, event time and deduplication key, no negative
    metric, and a non-empty event type, region and currency. *)
Theorem stored_events_well_formed (ops : list Op) :
  Forall well_formed_event (campaign_events (db (run_ops ops initial_world))).
Proof.
  assert (forall w, Forall well_formed_event (campaign_events (db w)) ->
            Forall well_formed_event (campaign_events (db (run_ops ops w)))) as Hgen.
  { unfold run_ops. induction ops as [|op ops IH]; intros w Hw; simpl; [exact Hw|].
    apply IH. destruct (apply_op_events op w) as [->|(env & e & Hreq & ->)]; [exact Hw|].
    apply Forall_app. split; [exact Hw|].
    constructor; [|constructor]. apply stored_form_well_formed. exact Hreq. }
  apply Hgen. constructor.
Qed.

Lemma apply_op_insights op w :
  exists rows, campaign_insights (db (apply_op op w))
               = (campaign_insights (db w) ++ rows)%list.
Proof.
  destruct op as [env fl msg|env fl c s e|fl params]; simpl.
  - rewrite step_spec. destruct (fail_read fl); [exists []; rewrite app_nil_r; reflexivity|].
    destruct msg as [ev|]; [|exists []; rewrite app_nil_r; reflexivity].
    assert (exists rows, campaign_insights (db (snd (fst (outcome env fl ev w))))
                         = (campaign_insights (db w) ++ rows)%list) as [rows Hrows].
    { unfold outcome. destruct (already_processed fl ev w);
        [exists []; rewrite app_nil_r; reflexivity|].
      destruct (required_error ev); [exists []; rewrite app_nil_r; reflexivity|].
      destruct (fail_store fl); [exists []; rewrite app_nil_r; reflexivity|].
      eexists. reflexivity. }
    exists rows. destruct (outcome env fl ev w) as [[[err|] w'] tr]; exact Hrows.
  - rewrite TriggerReaggregation_db. eexists. reflexivity.
  - rewrite GetCampaignInsights_db. exists []. rewrite app_nil_r. reflexivity.
Qed.

(** X7. The services only ever insert: after any sequence of worker
    turns, re-aggregations and queries, the rows inserted before into
    [campaign_events] and [campaign_insights] are still there, unchanged
    and in place, as a prefix of the rows inserted. No operation deletes
    or rewrites a row; superseding is left to the merge of the engine,
    which [final] describes. *)
Theorem tables_are_append_only (ops : list Op) (w : World) :
  (exists evs, campaign_events (db (run_ops ops w))
               = (campaign_events (db w) ++ evs)%list)
  /\ (exists rows, campaign_insights (db (run_ops ops w))
                   = (campaign_insights (db w) ++ rows)%list).
Proof.
  revert w. unfold run_ops.
  induction ops as [|op ops IH]; intros w; simpl.
  - split; exists []; rewrite app_nil_r; reflexivity.
  - destruct (IH (apply_op op w)) as [[evs Hevs] [rows Hrows]].
    split.
    + destruct (apply_op_events op w) as [Heq|(env & e & _ & Heq)];
        rewrite Hevs, Heq; [exists evs; reflexivity|].
      eexists. rewrite <- app_assoc. reflexivity.
    + destruct (apply_op_insights op w) as [r1 Heq]. rewrite Hrows, Heq.
      eexists. rewrite <- app_assoc. reflexivity.
Qed.

(** X8. The event log backs the deduplication store up: when the mark
    of a key fails and the same message is processed again by a clock that
    has not gone back, the event log holds two physical rows for the
    event and one logical row, the later one. *)
Theorem unmarked_redelivery_merges (env env2 : Env) (fl fl2 : Faults)
  (e : CampaignEvent) (w : World) :
  required_error e = None ->
  (forall ev, In ev (campaign_events (db w)) -> event_key ev <> event_key e) ->
  redis w !! ("dedup:" +:+ DeduplicationKey e) = None ->
  fail_store fl = false -> fail_mark fl = true -> fail_store fl2 = false ->
  processed_now env <= processed_now env2 ->
  let w2 := snd (fst (ProcessEvent env2 fl2 (Some e)
                        (snd (fst (ProcessEvent env fl (Some e) w))))) in
  campaign_events (db w2)
    = (campaign_events (db w) ++ [stored_form env e; stored_form env2 e])%list
  /\ final_lookup event_key event_version (event_key e) (campaign_events (db w2))
     = Some (stored_form env2 e).
Proof.
  intros Hreq Hnew Hfresh Hstore Hmark Hstore2 Hclock w2. unfold w2. clear w2.
  assert (snd (fst (ProcessEvent env fl (Some e) w))
          = mkWorld (stored_db env (stored_form env e) (db w)) (redis w)) as ->.
  { rewrite ProcessEvent_spec. unfold outcome.
    rewrite (already_processed_unmarked fl e w Hfresh), Hreq, Hstore.
    unfold marked, MarkDeduplicationKeyProcessed. rewrite Hmark. reflexivity. }
  rewrite ProcessEvent_spec. unfold outcome.
  rewrite already_processed_unmarked by exact Hfresh.
  rewrite Hreq, Hstore2. cbn [fst snd db campaign_events stored_db].
  rewrite <- app_assoc. split; [reflexivity|].
  unfold final_lookup. rewrite replacing_pick_app.
  rewrite (replacing_pick_none event_key event_version (event_key e)
             (campaign_events (db w)) None).
  - assert (event_key (stored_form env e) = event_key e) as K1
      by (destruct e; reflexivity).
    assert (event_key (stored_form env2 e) = event_key e) as K2
      by (destruct e; reflexivity).
    cbn [app replacing_pick]. rewrite K1, K2.
    destruct (decide (event_key e = event_key e)) as [_|Hne]; [|contradiction].
    cbn [supersede]. unfold event_version.
    assert (ProcessedAt (stored_form env2 e) = processed_now env2) as ->
      by (destruct e; reflexivity).
    assert (ProcessedAt (stored_form env e) = processed_now env) as ->
      by (destruct e; reflexivity).
    destruct (processed_now env2 <? processed_now env) eqn:E; [|reflexivity].
    apply Z.ltb_lt in E. lia.
  - intros r Hr Hk. exact (Hnew r Hr Hk).
Qed.

Lemma unmarked_redelivery_merges_witness :
  final_lookup event_key event_version (event_key ev_a)
    (campaign_events
       (db (snd (fst (ProcessEvent (env_at 20) no_faults (Some ev_a)
                        (snd (fst (ProcessEvent (env_at 10) mark_fails (Some ev_a)
                                     initial_world))))))))
  = Some (stored_form (env_at 20) ev_a).
Proof.
  apply (unmarked_redelivery_merges (env_at 10) (env_at 20) mark_fails no_faults ev_a
           initial_world); try reflexivity.
  - intros ev [].
  - discriminate.
Defined.

(** X9. The deduplication key alone does not identify a row of the
    event log: two events of one campaign with one deduplication key and
    different event times have different sorting keys, so the merge keeps
    both as logical rows whatever their processing times. *)
Theorem other_event_time_is_other_row (e1 e2 : CampaignEvent) :
  CampaignID e1 = CampaignID e2 -> DeduplicationKey e1 = DeduplicationKey e2 ->
  EventTime e1 <> EventTime e2 ->
  final event_key event_version [e1; e2] = [e1; e2].
Proof.
  intros Hc Hd Ht.
  assert (event_key e2 <> event_key e1) as Hne
    by (unfold event_key; intros H; injection H as _ H _; congruence).
  unfold final, final_lookup. cbn [map distinct].
  rewrite filter_nil, filter_cons, filter_nil.
  destruct (decide (event_key e2 <> event_key e1)) as [_|Hn]; [|contradiction].
  cbn [omap list_omap replacing_pick].
  destruct (decide (event_key e1 = event_key e1)) as [_|Hn]; [|contradiction].
  destruct (decide (event_key e2 = event_key e1)) as [Heq|_]; [contradiction|].
  destruct (decide (event_key e1 = event_key e2)) as [Heq|_]; [congruence|].
  destruct (decide (event_key e2 = event_key e2)) as [_|Hn]; [|contradiction].
  reflexivity.
Qed.

Lemma other_event_time_is_other_row_witness :
  final event_key event_version [ev_a; set_ProcessedAt 9 (mkEvent 1%N campaign1 "meta"
     "stats" 1000 50 0 50 100 (jan1 + 3600) "all" "USD" "meta:c1:2024-01-01:a" 5 0)]
  = [ev_a; set_ProcessedAt 9 (mkEvent 1%N campaign1 "meta"
     "stats" 1000 50 0 50 100 (jan1 + 3600) "all" "USD" "meta:c1:2024-01-01:a" 5 0)].
Proof.
  apply other_event_time_is_other_row; [reflexivity | reflexivity | discriminate].
Defined.

(** ** The aggregation service: reads through the cache *)

Lemma GetObject_missing fail key st :
  st !! key = None -> forall i rest, GetObject fail key st <> Some (i :: rest).
Proof.
  intros Hnone i rest E. apply GetObject_Some in E. congruence.
Qed.

(** X11. Read-through: after a call that missed the cache, reached the
    database, got at least one row and could write the cache, the next
    call for the same parameters is answered from the cache with those
    rows and without a database query, whatever the tables hold by then. *)
Theorem cached_rows_are_served (fl fl2 : Faults) (params : CampaignInsightsParams)
  (w : World) (d2 : DB) (i : CampaignInsights) (rest : list CampaignInsights) :
  redis w !! getCacheKey params = None ->
  fail_query fl = false -> fail_cache_set fl = false -> fail_cache_get fl2 = false ->
  run_insights_query params (db w) = i :: rest ->
  let r1 := redis (snd (fst (GetCampaignInsights fl params w))) in
  fst (fst (GetCampaignInsights fl params w)) = inr (i :: rest)
  /\ GetCampaignInsights fl2 params (mkWorld d2 r1)
     = (inr (i :: rest), mkWorld d2 r1, [ECacheGet (getCacheKey params)]).
Proof.
  intros Hnone Hq Hset Hget Hrows r1. unfold r1. clear r1.
  rewrite (GetCampaignInsights_miss fl params w (GetObject_missing _ _ _ Hnone)).
  rewrite Hq, Hrows. cbn [fst snd redis]. split; [reflexivity|].
  apply GetCampaignInsights_hit. cbn [redis].
  unfold Set_, GetObject. rewrite Hset, Hget. cbn [fst].
  rewrite lookup_insert_eq. reflexivity.
Qed.

Lemma cached_rows_are_served_witness :
  exists rows,
    rows <> []
    /\ fst (fst (GetCampaignInsights no_faults params1 world_ab)) = inr rows
    /\ fst (fst (GetCampaignInsights no_faults params1
                   (mkWorld empty_db
                      (redis (snd (fst (GetCampaignInsights no_faults params1
                                          world_ab)))))))
       = inr rows.
Proof.
  destruct (run_insights_query params1 (db world_ab)) as [|i rest] eqn:E;
    [vm_compute in E; discriminate|].
  destruct (cached_rows_are_served no_faults no_faults params1 world_ab empty_db i rest)
    as [H1 H2]; try reflexivity.
  - exact E.
  - exists (i :: rest). split; [discriminate|]. split; [exact H1|].
    rewrite H2. reflexivity.
Defined.

(** X12. The cache cannot make a query fail: [GetCampaignInsights]
    returns an error only when the database query fails, and when the
    cache cannot be read it returns the rows of the database query. *)
Theorem cache_failure_is_harmless (fl : Faults) (params : CampaignInsightsParams)
  (w : World) :
  (forall err, fst (fst (GetCampaignInsights fl params w)) = inl err ->
     fail_query fl = true /\ err = ErrClickHouse)
  /\ (fail_cache_get fl = true -> fail_query fl = false ->
        fst (fst (GetCampaignInsights fl params w))
        = inr (run_insights_query params (db w))).
Proof.
  split.
  - intros err Herr.
    destruct (GetCampaignInsights_cases fl params w) as [(i & rest & E)|Hmiss].
    + rewrite (GetCampaignInsights_hit _ _ _ _ _ E) in Herr. discriminate.
    + rewrite (GetCampaignInsights_miss _ _ _ Hmiss) in Herr.
      destruct (fail_query fl).
      * injection Herr as <-. split; reflexivity.
      * destruct (run_insights_query params (db w)); discriminate.
  - intros Hget Hq. rewrite GetCampaignInsights_miss.
    + rewrite Hq. destruct (run_insights_query params (db w)); reflexivity.
    + intros i rest. unfold GetObject. rewrite Hget. discriminate.
Qed.

Lemma cache_failure_is_harmless_witness :
  fst (fst (GetCampaignInsights
              (mkFaults false false false true true false false false false)
              params1 world_ab))
  = inr (run_insights_query params1 (db world_ab)).
Proof.
  apply (cache_failure_is_harmless
           (mkFaults false false false true true false false false false)
           params1 world_ab); reflexivity.
Defined.

(** ** The insights query *)

Lemma insert_by_date_perm r l : Permutation (insert_by_date r l) (r :: l).
Proof.
  induction l as [|x l IH]; simpl; [reflexivity|].
  destruct (InsDate r <? InsDate x); [reflexivity|].
  rewrite IH. apply perm_swap.
Qed.

Lemma insert_by_date_sorted r l :
  StronglySorted by_date l -> StronglySorted by_date (insert_by_date r l).
Proof.
  induction 1 as [|x l Hl IH Hx]; simpl.
  - repeat constructor.
  - destruct (InsDate r <? InsDate x) eqn:E.
    + apply Z.ltb_lt in E. constructor; [constructor; assumption|].
      constructor; [unfold by_date; lia|].
      apply Forall_forall. intros y Hy. rewrite Forall_forall in Hx.
      specialize (Hx y Hy). unfold by_date in *. lia.
    + apply Z.ltb_ge in E. constructor; [exact IH|].
      apply Forall_forall. intros y Hy.
      apply list_elem_of_In in Hy.
      apply (Permutation_in _ (insert_by_date_perm r l)) in Hy.
      destruct Hy as [<-|Hy]; [exact E|].
      rewrite Forall_forall in Hx. apply Hx. apply list_elem_of_In. exact Hy.
Qed.

Lemma order_by_date_from l : forall acc,
  StronglySorted by_date acc ->
  StronglySorted by_date (fold_left (fun a r => insert_by_date r a) l acc)
  /\ Permutation (fold_left (fun a r => insert_by_date r a) l acc) (acc ++ l).
Proof.
  induction l as [|r l IH]; intros acc Hacc; simpl.
  - split; [exact Hacc | rewrite app_nil_r; reflexivity].
  - destruct (IH (insert_by_date r acc) (insert_by_date_sorted r acc Hacc)) as [Hs Hp].
    split; [exact Hs|]. rewrite Hp, insert_by_date_perm.
    apply Permutation_middle.
Qed.

Lemma insights_where_matches p r : insights_where p r = true <-> matches p r.
Proof.
  unfold insights_where, matches, IsZero.
  rewrite !andb_true_iff.
  destruct (N.eqb_spec (ParCampaignID p) uuid_Nil) as [Hc|Hc];
  destruct (Z.eqb_spec (StartDate p) 0) as [Hs|Hs];
  destruct (Z.eqb_spec (EndDate p) 0) as [He|He];
  destruct (ParPlatform p) as [pl|]; destruct (ParRegion p) as [reg|];
  try destruct (String.eqb_spec reg "") as [Hr|Hr]; cbn [negb];
  rewrite ?N.eqb_eq, ?Z.leb_le, ?String.eqb_eq;
  (split;
   [ intros ((((H1 & H2) & H3) & H4) & H5);
     repeat split; intros; try congruence; try assumption; try contradiction
   | intros (H1 & H2 & H3 & H4 & H5);
     repeat split; auto ]).
Qed.

(** X13. On a cache miss with the database reachable,
    [GetCampaignInsights] returns the physical rows of
    [campaign_insights] that satisfy every filter the parameters set
    (campaign, first and last date, platform, non-empty region), each as
    often as the table holds it, ordered by ascending date. *)
Theorem query_rows_filtered_and_ordered (fl : Faults) (params : CampaignInsightsParams)
  (w : World) :
  redis w !! getCacheKey params = None -> fail_query fl = false ->
  exists rows,
    fst (fst (GetCampaignInsights fl params w)) = inr rows
    /\ StronglySorted by_date rows
    /\ (forall r, In r rows <-> In r (campaign_insights (db w)) /\ matches params r)
    /\ Permutation rows
         (filter (fun r => insights_where params r = true) (campaign_insights (db w))).
Proof.
  intros Hnone Hq. exists (run_insights_query params (db w)).
  split.
  - rewrite (GetCampaignInsights_miss fl params w (GetObject_missing _ _ _ Hnone)), Hq.
    destruct (run_insights_query params (db w)); reflexivity.
  - unfold run_insights_query, order_by_date.
    destruct (order_by_date_from
                (filter (fun r => insights_where params r = true) (campaign_insights (db w)))
                [] (SSorted_nil _)) as [Hs Hp].
    simpl in Hp. split; [exact Hs|]. split; [|exact Hp].
    intros r. split.
    + intros Hin. apply (Permutation_in _ Hp) in Hin.
      apply filter_In in Hin as [Hm Hin]. split; [exact Hin|].
      apply insights_where_matches. exact Hm.
    + intros [Hin Hm]. apply (Permutation_in _ (Permutation_sym Hp)).
      apply list_elem_of_In. apply list_elem_of_filter. split.
      * apply insights_where_matches. exact Hm.
      * apply list_elem_of_In. exact Hin.
Qed.

Lemma query_rows_filtered_and_ordered_witness :
  exists rows,
    fst (fst (GetCampaignInsights no_faults params1 world_ab)) = inr rows
    /\ StronglySorted by_date rows /\ length rows = 2%nat.
Proof.
  destruct (query_rows_filtered_and_ordered no_faults params1 world_ab)
    as (rows & Hres & Hs & _ & Hp).
  - reflexivity.
  - reflexivity.
  - exists rows. split; [exact Hres|]. split; [exact Hs|].
    rewrite (Permutation_length Hp). reflexivity.
Defined.

(** ** Re-aggregation and the cache *)

Lemma prefix_app s t : String.prefix s (s +:+ t) = true.
Proof.
  induction s as [|c s IH]; [destruct t; reflexivity|].
  change (String c s +:+ t) with (String c (s +:+ t)). cbn [String.prefix].
  destruct (ascii_dec c c); [exact IH | contradiction].
Qed.

(** Every cache key starts with the prefix of its campaign. *)
Lemma cache_key_prefixed p :
  exists rest, getCacheKey p = cache_prefix (ParCampaignID p) +:+ rest.
Proof.
  unfold getCacheKey, cache_prefix.
  set (k0 := "insights:" +:+ uuid_String (ParCampaignID p) +:+ ":").
  destruct (negb (IsZero (StartDate p))), (negb (IsZero (EndDate p))),
    (ParPlatform p), (ParRegion p), (negb (String.eqb (Granularity p) ""));
    cbv zeta; rewrite ?string_app_assoc; eexists; try reflexivity.
  all: instantiate (1 := ""); clear; induction k0 as [|c k0 IH]; [reflexivity|];
    change (String c k0 +:+ "") with (String c (k0 +:+ "")); rewrite <- IH; reflexivity.
Qed.

Lemma cache_key_has_prefix p :
  String.prefix (cache_prefix (ParCampaignID p)) (getCacheKey p) = true.
Proof.
  destruct (cache_key_prefixed p) as [rest ->]. apply prefix_app.
Qed.

Lemma delete_prefixed_lookup pre (st : gmap string rvalue) key :
  delete_prefixed pre st !! key
  = if String.prefix pre key then None else st !! key.
Proof.
  unfold delete_prefixed.
  destruct (String.prefix pre key) eqn:E.
  - apply map_lookup_filter_None. right. intros x _ H. simpl in H. congruence.
  - destruct (st !! key) as [x|] eqn:Hx.
    + apply map_lookup_filter_Some. split; [exact Hx | exact E].
    + apply map_lookup_filter_None. left. exact Hx.
Qed.

Lemma TriggerReaggregation_redis env fl c s e w :
  redis (snd (fst (TriggerReaggregation env fl c s e w)))
  = if fail_query fl then redis w
    else if fail_invalidate fl then redis w
    else delete_prefixed (cache_prefix c) (redis w).
Proof.
  unfold TriggerReaggregation. destruct (fail_query fl); [reflexivity|].
  rewrite reaggregation_select_value. cbn [snd fst redis].
  destruct (fail_invalidate fl); reflexivity.
Qed.

(** X14. After a re-aggregation of a campaign that reached the database
    and could clear the cache, no cache entry of that campaign is left, so
    the next [GetCampaignInsights] for that campaign queries the database
    and returns the rows of the table as re-aggregated, not a cached
    answer. *)
Theorem reaggregation_refreshes_reads (env : Env) (fl fl2 : Faults) (c : UUID)
  (s e : Time) (w : World) (params : CampaignInsightsParams) :
  fail_query fl = false -> fail_invalidate fl = false ->
  ParCampaignID params = c -> fail_query fl2 = false ->
  let w1 := snd (fst (TriggerReaggregation env fl c s e w)) in
  redis w1 !! getCacheKey params = None
  /\ In EDbQuery (snd (GetCampaignInsights fl2 params w1))
  /\ fst (fst (GetCampaignInsights fl2 params w1)) = inr (run_insights_query params (db w1)).
Proof.
  intros Hq Hinv Hc Hq2 w1.
  assert (redis w1 !! getCacheKey params = None) as Hnone.
  { unfold w1. rewrite TriggerReaggregation_redis, Hq, Hinv.
    rewrite delete_prefixed_lookup. subst c. rewrite cache_key_has_prefix. reflexivity. }
  split; [exact Hnone|].
  rewrite (GetCampaignInsights_miss fl2 params w1 (GetObject_missing _ _ _ Hnone)), Hq2.
  destruct (run_insights_query params (db w1)); split;
    first [right; left; reflexivity | reflexivity].
Qed.

Lemma reaggregation_refreshes_reads_witness :
  redis (snd (fst (TriggerReaggregation (env_at 30) no_faults campaign1 jan1 jan1
                     (snd (fst (GetCampaignInsights no_faults params1 world_ab))))))
    !! getCacheKey params1 = None.
Proof.
  destruct (reaggregation_refreshes_reads (env_at 30) no_faults no_faults campaign1
              jan1 jan1 (snd (fst (GetCampaignInsights no_faults params1 world_ab)))
              params1) as [Hnone _].
  - reflexivity.
  - reflexivity.
  - reflexivity.
  - reflexivity.
  - exact Hnone.
Defined.

Lemma dedup_key_not_prefixed c k :
  String.prefix (cache_prefix c) ("dedup:" +:+ k) = false.
Proof.
  unfold cache_prefix. generalize (uuid_String c +:+ ":"). intros x. reflexivity.
Qed.

(** X15. A re-aggregation touches nothing but [campaign_insights] and
    the cache entries of its campaign: the event log is as before, and
    every Redis key that does not start with the campaign's cache prefix
    keeps its value; in particular every deduplication mark survives. *)
Theorem reaggregation_spares_other_keys (env : Env) (fl : Faults) (c : UUID)
  (s e : Time) (w : World) :
  let w1 := snd (fst (TriggerReaggregation env fl c s e w)) in
  campaign_events (db w1) = campaign_events (db w)
  /\ (forall key, String.prefix (cache_prefix c) key = false ->
        redis w1 !! key = redis w !! key)
  /\ (forall fail k, IsDeduplicationKeyProcessed fail k (redis w1)
                     = IsDeduplicationKeyProcessed fail k (redis w)).
Proof.
  intros w1.
  assert (forall key, String.prefix (cache_prefix c) key = false ->
            redis w1 !! key = redis w !! key) as Hkeys.
  { intros key Hpre. unfold w1. rewrite TriggerReaggregation_redis.
    destruct (fail_query fl); [reflexivity|]. destruct (fail_invalidate fl); [reflexivity|].
    rewrite delete_prefixed_lookup, Hpre. reflexivity. }
  split; [unfold w1; rewrite TriggerReaggregation_db; reflexivity|].
  split; [exact Hkeys|].
  intros fail k. unfold IsDeduplicationKeyProcessed.
  rewrite Hkeys; [reflexivity | apply dedup_key_not_prefixed].
Qed.

(** A re-aggregation whose statement fails changes nothing: it
    returns the error, inserts no row and does not clear the cache. *)
Theorem failed_reaggregation_changes_nothing (env : Env) (fl : Faults) (c : UUID)
  (s e : Time) (w : World) :
  fail_query fl = true ->
  TriggerReaggregation env fl c s e w = (Some ErrClickHouse, w, [EReaggregate false]).
Proof.
  intros Hq. unfold TriggerReaggregation. rewrite Hq. reflexivity.
Qed.

(** ** What a re-aggregation reads *)

Lemma distinct_complete {K} `{EqDecision K} (l : list K) k : In k l -> In k (distinct l).
Proof.
  induction l as [|x l IH]; simpl; [tauto|].
  intros [->|Hin]; [left; reflexivity|].
  destruct (decide (k = x)) as [->|Hne]; [left; reflexivity|].
  right. apply list_elem_of_In. apply list_elem_of_filter. split; [exact Hne|].
  apply list_elem_of_In. apply IH. exact Hin.
Qed.

Lemma distinct_NoDup {K} `{EqDecision K} (l : list K) : List.NoDup (distinct l).
Proof.
  induction l as [|x l IH]; simpl; [constructor|].
  constructor.
  - intros Hin. apply filter_In in Hin as [Hne _]. contradiction.
  - apply NoDup_ListNoDup. apply NoDup_filter. apply NoDup_ListNoDup. exact IH.
Qed.

Lemma group_by_keys rows : map fst (group_by rows) = distinct (map bucket_of rows).
Proof.
  unfold group_by. rewrite map_map. simpl. apply map_id.
Qed.

Lemma group_by_member rows k ev :
  (exists g, In (k, g) (group_by rows) /\ In ev g) <-> In ev rows /\ bucket_of ev = k.
Proof.
  split.
  - intros (g & Hkg & Hev). apply group_by_group in Hkg. subst g.
    apply filter_In in Hev as [Hb Hin]. split; assumption.
  - intros [Hin Hb]. exists (filter (fun e => bucket_of e = k) rows). split.
    + unfold group_by. apply in_map_iff. exists k. split; [reflexivity|].
      apply distinct_complete. apply in_map_iff. exists ev. split; assumption.
    + apply list_elem_of_In. apply list_elem_of_filter. split; [exact Hb|].
      apply list_elem_of_In. exact Hin.
Qed.

Lemma reaggregation_where_spec c s e ev :
  reaggregation_where c s e ev = true <->
  CampaignID ev = c /\ s <= EventTime ev <= e.
Proof.
  unfold reaggregation_where. rewrite !andb_true_iff, N.eqb_eq, !Z.leb_le. tauto.
Qed.

(** X16. A re-aggregation that reaches the database inserts one row per
    bucket, for exactly the buckets that hold a stored event of the
    campaign whose event time lies between the two bounds, both
    included, and each row aggregates exactly those events of its bucket;
    events of another campaign or a time outside the bounds count
    nowhere, and with the last bound before the first nothing is
    inserted. *)
Theorem reaggregation_reads_the_range (env : Env) (fl : Faults) (c : UUID) (s e : Time)
  (w : World) :
  fail_query fl = false ->
  exists groups,
    campaign_insights (db (snd (fst (TriggerReaggregation env fl c s e w))))
    = (campaign_insights (db w)
       ++ map (fun kg => aggregate_of (clickhouse_now env) (fst kg) (snd kg)) groups)%list
    /\ List.NoDup (map fst groups)
    /\ (forall k ev,
          (exists g, In (k, g) groups /\ In ev g) <->
          (In ev (campaign_events (db w)) /\ CampaignID ev = c
           /\ s <= EventTime ev <= e /\ bucket_of ev = k))
    /\ (forall k g, In (k, g) groups -> g <> [])
    /\ (e < s -> groups = []).
Proof.
  intros Hq. exists (reaggregation_groups c s e (db w)).
  split.
  { rewrite TriggerReaggregation_db. unfold rows_of_call. cbn [snd fst].
    rewrite Hq. reflexivity. }
  unfold reaggregation_groups.
  split; [rewrite group_by_keys; apply distinct_NoDup|].
  assert (forall k ev,
            (exists g, In (k, g)
               (group_by (filter (fun ev0 => reaggregation_where c s e ev0 = true)
                            (campaign_events (db w)))) /\ In ev g) <->
            (In ev (campaign_events (db w)) /\ CampaignID ev = c
             /\ s <= EventTime ev <= e /\ bucket_of ev = k)) as Hmem.
  { intros k ev. rewrite group_by_member. split.
    - intros [Hin Hb]. apply filter_In in Hin as [Hw Hin].
      apply reaggregation_where_spec in Hw as [Hc Ht]. repeat split; try assumption; lia.
    - intros (Hin & Hc & Ht & Hb). split; [|exact Hb].
      apply list_elem_of_In. apply list_elem_of_filter. split.
      + apply reaggregation_where_spec. split; assumption.
      + apply list_elem_of_In. exact Hin. }
  split; [exact Hmem|]. split.
  - intros k g Hkg Hnil.
    pose proof (group_by_group _ _ _ Hkg) as Hg.
    apply group_by_key in Hkg as (ev & Hin & Hb).
    assert (In ev g) as Hev.
    { rewrite Hg. apply list_elem_of_In. apply list_elem_of_filter.
      split; [exact Hb | apply list_elem_of_In; exact Hin]. }
    rewrite Hnil in Hev. destruct Hev.
  - intros Hlt.
    destruct (group_by (filter (fun ev0 => reaggregation_where c s e ev0 = true)
                          (campaign_events (db w)))) as [|[k g] rest] eqn:E; [reflexivity|].
    exfalso.
    assert (In (k, g) (group_by (filter (fun ev0 => reaggregation_where c s e ev0 = true)
                                   (campaign_events (db w))))) as Hkg
      by (rewrite E; left; reflexivity).
    apply group_by_key in Hkg as (ev & Hin & _).
    apply filter_In in Hin as [Hw _].
    apply reaggregation_where_spec in Hw as [_ Ht]. lia.
Qed.

Lemma reaggregation_reads_the_range_witness :
  exists groups,
    campaign_insights
      (db (snd (fst (TriggerReaggregation (env_at 30) no_faults campaign1 jan1 jan1
                       world_ab))))
    = (campaign_insights (db world_ab)
       ++ map (fun kg => aggregate_of (clickhouse_now (env_at 30)) (fst kg) (snd kg))
            groups)%list
    /\ List.NoDup (map fst groups)
    /\ (forall k ev,
          (exists g, In (k, g) groups /\ In ev g) <->
          (In ev (campaign_events (db world_ab)) /\ CampaignID ev = campaign1
           /\ jan1 <= EventTime ev <= jan1 /\ bucket_of ev = k))
    /\ (forall k g, In (k, g) groups -> g <> [])
    /\ (jan1 < jan1 -> groups = []).
Proof.
  apply (reaggregation_reads_the_range (env_at 30) no_faults campaign1 jan1 jan1 world_ab).
  reflexivity.
Defined.

(** ** Cache keys *)

Lemma format_date_of_day t1 t2 : toDate t1 = toDate t2 -> format_date t1 = format_date t2.
Proof. intros H. unfold format_date. rewrite H. reflexivity. Qed.

Lemma query_args_start p t :
  t <> 0 ->
  exists pre post,
    query_args (set_StartDate t p) = (pre ++ ArgTime t :: post)%list
    /\ pre = (if negb (ParCampaignID p =? uuid_Nil)%N
              then [ArgString (uuid_String (ParCampaignID p))] else [])
    /\ post = ((if negb (IsZero (EndDate p)) then [ArgTime (EndDate p)] else []) ++
               (match ParPlatform p with Some pl => [ArgString pl] | None => [] end) ++
               (match ParRegion p with
                | Some r => if negb (String.eqb r "") then [ArgString r] else []
                | None => []
                end))%list.
Proof.
  intros Ht. unfold query_args, set_StartDate.
  cbn [ParCampaignID StartDate EndDate ParPlatform ParRegion].
  assert (IsZero t = false) as -> by (unfold IsZero; apply Z.eqb_neq; exact Ht).
  cbn [negb]. eexists. eexists. split; [|split; reflexivity]. reflexivity.
Qed.

(** X17. The cache key holds the first date of a query by its calendar
    day only, while the statement is given the full timestamp: two queries
    that differ only in the time of day of their first date share one
    cache key although [buildInsightsQuery] gives them different
    arguments, so either can be answered with the rows cached for the
    other. *)
Theorem cache_key_ignores_time_of_day (p : CampaignInsightsParams) (t1 t2 : Time) :
  t1 <> 0 -> t2 <> 0 -> toDate t1 = toDate t2 -> t1 <> t2 ->
  getCacheKey (set_StartDate t1 p) = getCacheKey (set_StartDate t2 p)
  /\ buildInsightsQuery (set_StartDate t1 p) <> buildInsightsQuery (set_StartDate t2 p).
Proof.
  intros H1 H2 Hday Hne. split.
  - unfold getCacheKey, set_StartDate.
    cbn [ParCampaignID StartDate EndDate ParPlatform ParRegion Granularity].
    assert (IsZero t1 = false) as -> by (unfold IsZero; apply Z.eqb_neq; exact H1).
    assert (IsZero t2 = false) as -> by (unfold IsZero; apply Z.eqb_neq; exact H2).
    rewrite (format_date_of_day t1 t2 Hday). reflexivity.
  - intros Heq. apply same_query_shape in Heq as [_ Ha].
    destruct (query_args_start p t1 H1) as (pre1 & post1 & E1 & Hpre1 & _).
    destruct (query_args_start p t2 H2) as (pre2 & post2 & E2 & Hpre2 & _).
    rewrite E1, E2 in Ha. subst pre1 pre2.
    apply app_inv_head in Ha. apply Hne. apply ArgTime_inj.
    exact (f_equal (fun l => match l with x :: _ => x | [] => ArgTime 0 end) Ha).
Qed.

Lemma cache_key_ignores_time_of_day_witness :
  getCacheKey (set_StartDate jan1 params1) = getCacheKey (set_StartDate (jan1 + 3600) params1)
  /\ buildInsightsQuery (set_StartDate jan1 params1)
     <> buildInsightsQuery (set_StartDate (jan1 + 3600) params1).
Proof.
  apply cache_key_ignores_time_of_day; [discriminate | discriminate | reflexivity | discriminate].
Defined.

Lemma cache_key_not_dedup p k : getCacheKey p <> "dedup:" +:+ k.
Proof.
  destruct (cache_key_prefixed p) as [rest ->]. unfold cache_prefix.
  rewrite string_app_assoc. generalize ((uuid_String (ParCampaignID p) +:+ ":") +:+ rest).
  intros x H. discriminate H.
Qed.

(** X18. The two uses of Redis do not disturb each other: processing
    an event changes no cache entry of any query, and answering a query
    changes no deduplication mark. *)
Theorem cache_and_marks_are_separate (env : Env) (fl : Faults)
  (msg : option CampaignEvent) (params : CampaignInsightsParams) (w : World) :
  (forall p, redis (snd (fst (ProcessEvent env fl msg w))) !! getCacheKey p
             = redis w !! getCacheKey p)
  /\ (forall fail k,
        IsDeduplicationKeyProcessed fail k
          (redis (snd (fst (GetCampaignInsights fl params w))))
        = IsDeduplicationKeyProcessed fail k (redis w)).
Proof.
  split.
  - intros p. destruct msg as [e|]; [|reflexivity].
    rewrite ProcessEvent_spec. unfold outcome.
    destruct (already_processed fl e w); [reflexivity|].
    destruct (required_error e); [reflexivity|].
    destruct (fail_store fl); [reflexivity|].
    cbn [fst snd redis]. unfold marked, MarkDeduplicationKeyProcessed.
    destruct (fail_mark fl); [reflexivity|]. cbn [fst].
    apply lookup_insert_ne. intros H. symmetry in H. exact (cache_key_not_dedup p _ H).
  - intros fail k. unfold IsDeduplicationKeyProcessed.
    assert (redis (snd (fst (GetCampaignInsights fl params w))) !! ("dedup:" +:+ k)
            = redis w !! ("dedup:" +:+ k)) as ->; [|reflexivity].
    destruct (GetCampaignInsights_cases fl params w) as [(i & rest & E)|Hmiss].
    + rewrite (GetCampaignInsights_hit _ _ _ _ _ E). reflexivity.
    + rewrite (GetCampaignInsights_miss _ _ _ Hmiss).
      destruct (fail_query fl); [reflexivity|].
      destruct (run_insights_query params (db w)); [reflexivity|].
      cbn [fst snd redis]. unfold Set_. destruct (fail_cache_set fl); [reflexivity|].
      cbn [fst]. apply lookup_insert_ne. apply cache_key_not_dedup.
Qed.

(** X19. The statement [buildInsightsQuery] builds has exactly one
    placeholder per argument, whichever filters are set. *)
Theorem placeholders_match_arguments (p : CampaignInsightsParams) :
  placeholders (fst (buildInsightsQuery p)) = length (snd (buildInsightsQuery p)).
Proof.
  rewrite buildInsightsQuery_shape. cbn [fst snd].
  unfold query_flags, query_args, where_suffix.
  destruct (negb (ParCampaignID p =? uuid_Nil)%N), (negb (IsZero (StartDate p))),
    (negb (IsZero (EndDate p))), (ParPlatform p) as [pl|], (ParRegion p) as [r|];
    try destruct (negb (String.eqb r "")); vm_compute; reflexivity.
Qed.

(** ** The Redis client *)

(** X20. A key marked as processed is found processed, marking one key
    leaves the answer for every other key as it was, and a mark that
    fails leaves the store as it was. *)
Theorem mark_then_check (k k' : string) (st : gmap string rvalue) :
  IsDeduplicationKeyProcessed false k (fst (MarkDeduplicationKeyProcessed false k st))
    = (true, false)
  /\ (k' <> k ->
        IsDeduplicationKeyProcessed false k' (fst (MarkDeduplicationKeyProcessed false k st))
        = IsDeduplicationKeyProcessed false k' st)
  /\ MarkDeduplicationKeyProcessed true k st = (st, true).
Proof.
  unfold IsDeduplicationKeyProcessed, MarkDeduplicationKeyProcessed. cbn [fst].
  split; [rewrite lookup_insert_eq; reflexivity|]. split; [|reflexivity].
  intros Hne. rewrite lookup_insert_ne; [reflexivity|].
  intros H. apply Hne. symmetry. exact (inj (String.append "dedup:") _ _ H).
Qed.

Lemma mark_then_check_witness :
  IsDeduplicationKeyProcessed false "b"
    (fst (MarkDeduplicationKeyProcessed false "a" (redis world_ab)))
  = IsDeduplicationKeyProcessed false "b" (redis world_ab).
Proof.
  destruct (mark_then_check "a" "b" (redis world_ab)) as (_ & H & _).
  apply H. discriminate.
Defined.

(** ** The rate limiter *)

Lemma live_present now (st : gmap string counter) key n exp :
  st !! key = Some (n, Some exp) -> now < exp -> live now st key = Some (n, Some exp).
Proof.
  intros Hst Hlt. unfold live. rewrite Hst.
  apply Z.ltb_lt in Hlt. rewrite Hlt. reflexivity.
Qed.

Lemma allowed_proceed r ds : allowed (Proceed r :: ds) = S (allowed ds).
Proof. reflexivity. Qed.

Lemma allowed_reject l r ds : allowed (TooManyRequests l r :: ds) = allowed ds.
Proof. reflexivity. Qed.

Lemma serve_in_window rate period key exp ts : forall (st : gmap string counter) n,
  st !! key = Some (n, Some exp) -> 1 <= n <= rate ->
  Forall (fun t => t < exp) ts ->
  allowed (fst (serve rate period key ts st))
    = Z.to_nat (Z.min (rate - n) (Z.of_nat (length ts)))
  /\ snd (serve rate period key ts st) !! key
     = Some (Z.min rate (n + Z.of_nat (length ts)), Some exp).
Proof.
  induction ts as [|t ts IH]; intros st n Hst Hn Hts.
  - simpl. split; [rewrite Z.min_r by lia; reflexivity|].
    rewrite Hst. f_equal. f_equal. lia.
  - inversion Hts as [|? ? Ht Hrest]; subst.
    cbn [serve]. unfold RateLimit.
    rewrite (live_present t st key n exp Hst Ht).
    destruct (rate <=? n) eqn:E.
    + apply Z.leb_le in E. assert (n = rate) by lia. subst n.
      destruct (IH st rate Hst Hn Hrest) as [Ha Hs].
      destruct (serve rate period key ts st) as [ds st2]. cbn [fst snd] in *.
      split.
      * rewrite allowed_reject, Ha. rewrite !Z.min_l by lia. reflexivity.
      * rewrite Hs. f_equal. f_equal. lia.
    + apply Z.leb_gt in E.
      assert ((n =? 0) = false) as -> by (apply Z.eqb_neq; lia).
      unfold incr. rewrite (live_present t st key n exp Hst Ht). cbv zeta.
      match goal with
      | |- context [serve rate period key ts ?s] =>
          destruct (IH s (n + 1)) as [Ha Hs];
            [apply lookup_insert_eq | lia | exact Hrest |];
          destruct (serve rate period key ts s) as [ds st2]
      end.
      cbn [fst snd] in *. split.
      * rewrite allowed_proceed, Ha. cbn [length]. lia.
      * rewrite Hs. f_equal. f_equal. cbn [length]. lia.
Qed.

(** X21. Within one window the limiter lets exactly [rate] requests
    through: when a key has no live counter, the request that opens the
    window and the requests that follow before the window ends are
    allowed until [rate] of them have passed and rejected from then on,
    and the counter stands at the number of requests seen, capped at
    [rate], with the expiry set by the opening request. *)
Theorem window_allows_rate_requests (rate period : Z) (key : string) (t0 : Time)
  (ts : list Time) (st : gmap string counter) :
  1 <= rate -> 0 < period -> live t0 st key = None ->
  Forall (fun t => t < t0 + period) ts ->
  allowed (fst (serve rate period key (t0 :: ts) st))
    = Z.to_nat (Z.min rate (1 + Z.of_nat (length ts)))
  /\ snd (serve rate period key (t0 :: ts) st) !! key
     = Some (Z.min rate (1 + Z.of_nat (length ts)), Some (t0 + period)).
Proof.
  intros Hrate Hperiod Hlive Hts. cbn [serve]. unfold RateLimit. rewrite Hlive.
  assert ((rate <=? 0) = false) as -> by (apply Z.leb_gt; lia).
  cbn [Z.eqb]. unfold set_first.
  assert ((0 <? period) = true) as -> by (apply Z.ltb_lt; exact Hperiod). cbv zeta.
  match goal with
  | |- context [serve rate period key ts ?s] =>
      destruct (serve_in_window rate period key (t0 + period) ts s 1) as [Ha Hs];
        [apply lookup_insert_eq | lia | exact Hts |];
      destruct (serve rate period key ts s) as [ds st2]
  end.
  cbn [fst snd] in *. split.
  - rewrite allowed_proceed, Ha. unfold Time in *. lia.
  - rewrite Hs. reflexivity.
Qed.

Lemma window_allows_rate_requests_witness :
  allowed (fst (serve 3 60 "rate_limit:10.0.0.1" [100; 101; 102; 103; 159] ∅)) = 3%nat.
Proof.
  destruct (window_allows_rate_requests 3 60 "rate_limit:10.0.0.1" 100
              [101; 102; 103; 159] ∅) as [Ha _].
  - lia.
  - lia.
  - reflexivity.
  - repeat constructor.
  - exact Ha.
Defined.

(** X22. The limiter rejects a request only when Redis answered and the
    live counter of the key has reached the rate; whenever it rejects, or
    a Redis call fails, it lets the counters as they were, and a request
    meeting a Redis failure proceeds. *)
Theorem rejected_only_over_limit (rate period : Z) (now : Time) (fail_get fail_write : bool)
  (key : string) (st : gmap string counter) :
  let count := match live now st key with Some (n, _) => n | None => 0 end in
  (proceeds (fst (RateLimit rate period now fail_get fail_write key st)) = false
     <-> fail_get = false /\ rate <= count)
  /\ (fail_get = true \/ fail_write = true \/ rate <= count ->
        snd (RateLimit rate period now fail_get fail_write key st) = st).
Proof.
  intros count. unfold RateLimit. fold count.
  destruct fail_get.
  - split; [split; [discriminate | intros [H _]; discriminate] | reflexivity].
  - destruct (Z.leb_spec rate count) as [Hle|Hgt].
    + split; [split; [intros _; split; [reflexivity|exact Hle] | reflexivity] | reflexivity].
    + split.
      * destruct fail_write; (split; [discriminate | intros [_ H]; lia]).
      * intros [H|[H|H]]; [discriminate | rewrite H; reflexivity | lia].
Qed.

(** X23. [SetupRouter] never installs a limiter that shuts every
    request out: a configured rate that is not positive is replaced by
    100, so the first request of a window proceeds and, Redis answering,
    opens a window of 60 seconds with the counter at 1; with a rate that
    is not positive the handler itself would reject that request. *)
Theorem installed_limiter_admits (configured : Z) (now : Time) (fail_get fail_write : bool)
  (key : string) (st : gmap string counter) :
  live now st key = None ->
  1 <= installed_rate configured
  /\ (configured <= 0 -> installed_rate configured = 100)
  /\ proceeds (fst (RateLimit (installed_rate configured) installed_period now
                      fail_get fail_write key st)) = true
  /\ RateLimit (installed_rate configured) installed_period now false false key st
     = (Proceed (Some (installed_rate configured - 1)), <[key := (1, Some (now + 60))]> st)
  /\ (configured <= 0 ->
        proceeds (fst (RateLimit configured installed_period now false fail_write key st))
        = false).
Proof.
  intros Hlive.
  assert (1 <= installed_rate configured) as Hpos
    by (unfold installed_rate; destruct (Z.leb_spec configured 0); lia).
  split; [exact Hpos|].
  split; [intros Hc; unfold installed_rate; apply Z.leb_le in Hc; rewrite Hc; reflexivity|].
  unfold RateLimit. rewrite Hlive.
  assert ((installed_rate configured <=? 0) = false) as -> by (apply Z.leb_gt; lia).
  split; [destruct fail_get, fail_write; reflexivity|].
  split.
  - cbn [Z.eqb]. unfold set_first, installed_period. cbn [Z.ltb Z.compare].
    replace (installed_rate configured - 0 - 1) with (installed_rate configured - 1) by lia.
    reflexivity.
  - intros Hc. apply Z.leb_le in Hc. rewrite Hc. reflexivity.
Qed.

Lemma installed_limiter_admits_witness :
  RateLimit (installed_rate 0) installed_period 100 false false "rate_limit:10.0.0.1" ∅
  = (Proceed (Some 99), <["rate_limit:10.0.0.1" := (1, Some 160)]> ∅).
Proof.
  destruct (installed_limiter_admits 0 100 false false "rate_limit:10.0.0.1" ∅)
    as (_ & _ & _ & H & _).
  - reflexivity.
  - exact H.
Defined.

Lemma rejected_only_over_limit_witness :
  snd (RateLimit 1 60 101 false false "rate_limit:10.0.0.1"
         (<["rate_limit:10.0.0.1" := (1, Some 160)]> ∅))
  = <["rate_limit:10.0.0.1" := (1, Some 160)]> ∅.
Proof.
  destruct (rejected_only_over_limit 1 60 101 false false "rate_limit:10.0.0.1"
              (<["rate_limit:10.0.0.1" := (1, Some 160)]> ∅)) as [_ H].
  apply H. right. right. vm_compute. discriminate.
Defined.

Lemma live_insert_ne now (st : gmap string counter) key key' v :
  key <> key' -> live now (<[key := v]> st) key' = live now st key'.
Proof.
  intros Hne. unfold live. rewrite lookup_insert_ne by exact Hne. reflexivity.
Qed.

(** X24. Counters are per key: a request under one key never changes
    what a request under another key finds, and two clients without a
    user that come from different addresses are counted under different
    keys. *)
Theorem counters_are_per_key (rate period : Z) (now now' : Time)
  (fail_get fail_write : bool) (key key' : string) (st : gmap string counter)
  (ip ip' : string) :
  (key <> key' ->
     live now' (snd (RateLimit rate period now fail_get fail_write key st)) key'
     = live now' st key')
  /\ (ip <> ip' -> limit_key None ip <> limit_key None ip').
Proof.
  split.
  - intros Hne. unfold RateLimit.
    destruct fail_get; [reflexivity|].
    destruct (rate <=? _); [reflexivity|].
    destruct fail_write; [reflexivity|]. cbn [snd].
    destruct (_ =? 0).
    + unfold set_first. apply live_insert_ne. exact Hne.
    + unfold incr. destruct (live now st key) as [[n exp]|];
        apply live_insert_ne; exact Hne.
  - intros Hne H. apply Hne. unfold limit_key in H.
    exact (inj (String.append "rate_limit:") _ _ H).
Qed.

Lemma counters_are_per_key_witness :
  live 101 (snd (RateLimit 3 60 100 false false "rate_limit:10.0.0.1"
                   (<["rate_limit:10.0.0.2" := (2, Some 150)]> ∅)))
    "rate_limit:10.0.0.2"
  = live 101 (<["rate_limit:10.0.0.2" := (2, Some 150)]> ∅) "rate_limit:10.0.0.2".
Proof.
  destruct (counters_are_per_key 3 60 100 101 false false "rate_limit:10.0.0.1"
              "rate_limit:10.0.0.2" (<["rate_limit:10.0.0.2" := (2, Some 150)]> ∅)
              "10.0.0.1" "10.0.0.2") as [H _].
  apply H. discriminate.
Defined.

Lemma reaggregation_spares_other_keys_witness :
  redis (snd (fst (TriggerReaggregation (env_at 30) no_faults campaign1 jan1 jan1
                     world_ab)))
    !! ("dedup:" +:+ DeduplicationKey ev_a)
  = redis world_ab !! ("dedup:" +:+ DeduplicationKey ev_a).
Proof.
  destruct (reaggregation_spares_other_keys (env_at 30) no_faults campaign1 jan1 jan1
              world_ab) as (_ & H & _).
  apply H. vm_compute. reflexivity.
Defined.
